(** * calibre2yac: the sync pass of [sync_libraries.py]

    A shallow embedding of [ComicSyncManager]: path derivation, the
    reconciler of [sync_tag] (what to materialize, what to remove), the two
    execution phases, the cache load and save and the empty-directory sweep.

    Python [str] values are modelled as [string] over Latin-1 code points,
    the SQLite REAL [series_index] as an IEEE binary float ([spec_float]),
    the file system as a finite map from paths to entries, and exceptions as
    an explicit outcome next to the state of the world. The jobs given to
    the thread pool run one after the other, in the order of submission;
    the log is the list of the records written, without their time stamps. *)

From Stdlib Require Import ZArith NArith Ascii String DecimalString List Lia.
From Stdlib Require Import Floats.SpecFloat.
From Stdlib Require DecimalPos DecimalZ.
From stdpp Require Import base gmap sets list strings sorting.

Local Open Scope string_scope.
Local Open Scope Z_scope.

(** ** Python strings *)

Module PyStr.

Definition code (c : ascii) : N := N_of_ascii c.

Definition between (lo hi : N) (c : ascii) : bool :=
  ((lo <=? code c) && (code c <=? hi))%N.

Definition one_of (l : list N) (c : ascii) : bool :=
  existsb (N.eqb (code c)) l.

(** [str.isalnum] on one character, for the code points below 256:
    the ASCII digits and letters, and in Latin-1 the letters
    (feminine/masculine ordinal, micro sign, U+00C0..U+00FF without the
    multiplication and division signs) and the numeric characters
    (superscripts one, two, three and the three vulgar fractions). *)
Definition isalnum (c : ascii) : bool :=
  between 48 57 c || between 65 90 c || between 97 122 c
  || one_of [170; 178; 179; 181; 185; 186; 188; 189; 190]%N c
  || between 192 214 c || between 216 246 c || between 248 255 c.

(** [str.isspace] on one character, for the code points below 256. *)
Definition isspace (c : ascii) : bool :=
  between 9 13 c || between 28 32 c || one_of [133; 160]%N c.

Fixpoint filter (p : ascii -> bool) (s : string) : string :=
  match s with
  | EmptyString => EmptyString
  | String c s' => if p c then String c (filter p s') else filter p s'
  end.

Fixpoint lstrip (s : string) : string :=
  match s with
  | EmptyString => EmptyString
  | String c s' => if isspace c then lstrip s' else s
  end.

Fixpoint rev_onto (s acc : string) : string :=
  match s with
  | EmptyString => acc
  | String c s' => rev_onto s' (String c acc)
  end.

Definition rev (s : string) : string := rev_onto s EmptyString.

Definition rstrip (s : string) : string := rev (lstrip (rev s)).

(** [s.strip()] *)
Definition strip (s : string) : string := rstrip (lstrip s).

Definition lower_char (c : ascii) : ascii :=
  if between 65 90 c || between 192 214 c || between 216 222 c
  then ascii_of_N (code c + 32) else c.

(** [s.lower()] *)
Fixpoint lower (s : string) : string :=
  match s with
  | EmptyString => EmptyString
  | String c s' => String (lower_char c) (lower s')
  end.

(** [s.startswith(p)] *)
Fixpoint startswith (p s : string) : bool :=
  match p, s with
  | EmptyString, _ => true
  | String a p', String b s' => Ascii.eqb a b && startswith p' s'
  | String _ _, EmptyString => false
  end.

(** [s.endswith(x)] *)
Definition endswith (x s : string) : bool := startswith (rev x) (rev s).

(** [s.endswith((x1, ..., xn))] *)
Definition endswith_any (xs : list string) (s : string) : bool :=
  existsb (fun x => endswith x s) xs.

Fixpoint zeros (n : nat) : string :=
  match n with
  | O => EmptyString
  | S n' => String "0" (zeros n')
  end.

(** [str(n)] for an [int]. *)
Definition of_Z (z : Z) : string := NilZero.string_of_int (Z.to_int z).

Definition of_N (n : N) : string := NilZero.string_of_uint (N.to_uint n).

(** [s in (' ', '-', '_')] for a character [s]. *)
Definition is_separator (c : ascii) : bool := one_of [32; 45; 95]%N c.

(** ["".join(c for c in s if c.isalnum() or c in (' ', '-', '_')).strip()] *)
Definition sanitize (s : string) : string :=
  strip (filter (fun c => isalnum c || is_separator c) s).

End PyStr.

(** ** Formatting a float with the format specification [02.1f] *)

Module PyFloat.

(** Truth value of a float: only the two zeros are false. *)
Definition truthy (x : spec_float) : bool :=
  match x with
  | S754_zero _ => false
  | _ => true
  end.

(** The number of tenths nearest to [m * 2^e], ties to the even one:
    the correctly rounded conversion that the [f] presentation type with
    precision 1 performs. *)
Definition tenths (m : positive) (e : Z) : N :=
  if 0 <=? e then (10 * Npos m * 2 ^ Z.to_N e)%N
  else
    let num := (10 * Npos m)%N in
    let den := (2 ^ Z.to_N (- e))%N in
    let q := (num / den)%N in
    let r := (num mod den)%N in
    if (den <? 2 * r)%N then (q + 1)%N
    else if ((2 * r =? den) && N.odd q)%N then (q + 1)%N
    else q.

Definition sign_of (s : bool) : string := if s then "-" else "".

(** The digits after the sign, before any padding. *)
Definition body (x : spec_float) : string :=
  match x with
  | S754_zero _ => "0.0"
  | S754_infinity _ => "inf"
  | S754_nan => "nan"
  | S754_finite _ m e =>
      let t := tenths m e in
      PyStr.of_N (t / 10) +:+ "." +:+ PyStr.of_N (t mod 10)
  end.

Definition sign (x : spec_float) : string :=
  match x with
  | S754_zero s | S754_infinity s | S754_finite s _ _ => sign_of s
  | S754_nan => ""
  end.

(** [format(x, f"0{width}.1f")]: the flag [0] pads with zeros between the
    sign and the digits up to a total of [width] characters. *)
Definition format_0w_1f (width : nat) (x : spec_float) : string :=
  let sg := sign x in
  let b := body x in
  sg +:+ PyStr.zeros (width - String.length sg - String.length b) +:+ b.

(** [f"{x:02.1f}"] *)
Definition format_02_1f (x : spec_float) : string := format_0w_1f 2 x.

End PyFloat.

(** ** [os.path] on POSIX *)

Module OsPath.

(** [os.path.join(a, b)] *)
Definition join (a b : string) : string :=
  if PyStr.startswith "/" b then b
  else if (String.eqb a "" || PyStr.endswith "/" a)%bool then a +:+ b
  else a +:+ "/" +:+ b.

Fixpoint take_while_not_slash (s : string) : string :=
  match s with
  | EmptyString => EmptyString
  | String c s' =>
      if Ascii.eqb c "/" then EmptyString
      else String c (take_while_not_slash s')
  end.

Fixpoint drop_while_not_slash (s : string) : string :=
  match s with
  | EmptyString => EmptyString
  | String c s' => if Ascii.eqb c "/" then s else drop_while_not_slash s'
  end.

(** [os.path.basename(p)]: what follows the last slash. *)
Definition basename (p : string) : string :=
  PyStr.rev (take_while_not_slash (PyStr.rev p)).

Fixpoint drop_slashes (s : string) : string :=
  match s with
  | EmptyString => EmptyString
  | String c s' => if Ascii.eqb c "/" then drop_slashes s' else s
  end.

(** [os.path.dirname(p)]: what precedes the last slash, without its
    trailing slashes unless it consists of slashes only. *)
Definition dirname (p : string) : string :=
  let head := PyStr.rev (drop_while_not_slash (PyStr.rev p)) in
  let stripped := PyStr.rev (drop_slashes (PyStr.rev head)) in
  if String.eqb stripped "" then head else stripped.

End OsPath.

(** ** Catalog data *)

(** [format_type]: the lower-cased [data.format]; the query keeps the rows
    whose format is [cbr] or [cbz] and no other. *)
Inductive format_type := Cbr | Cbz.

#[global] Instance format_type_eq_dec : EqDecision format_type.
Proof. solve_decision. Defined.

#[global] Instance format_type_countable : Countable format_type.
Proof.
  refine (inj_countable' (fun f => match f with Cbr => false | Cbz => true end)
            (fun b => if b then Cbz else Cbr) _).
  intros []; reflexivity.
Defined.

Definition format_str (f : format_type) : string :=
  match f with Cbr => "cbr" | Cbz => "cbz" end.

(** A value of [book_data['formats']]: keys [name], [last_modified], [size]. *)
Record format_data := {
  fd_name : string;
  fd_last_modified : option string;
  fd_size : option Z
}.

(** [book_data['metadata']]: keys [author_sort], [timestamp], [pubdate]. *)
Record metadata := {
  author_sort : option string;
  timestamp : option string;
  pubdate : option string
}.

#[global] Instance metadata_eq_dec : EqDecision metadata.
Proof. solve_decision. Defined.

(** A value of the dictionary that [_get_metadata_from_db] returns. *)
Record book_data := {
  title : string;
  path : string;
  series : option string;
  series_index : option spec_float;
  formats : gmap format_type format_data;
  book_metadata : metadata
}.

(** The dictionary of [_get_metadata_from_db], keyed by [books.id]. *)
Abbreviation catalog := (gmap Z book_data).

(** The cache as loaded from JSON, keyed by [str(book_id)]. *)
Abbreviation sync_cache := (gmap string book_data).

(** [LIBRARY_METHOD], a module-level name that the script binds when it is
    run as the main program and that is unbound otherwise. *)
Inductive library_method :=
| MethodLink
| MethodCopy
| MethodOther (value : string)
| MethodUnbound.

(** ** The world: file system, cache file, log *)

Inductive exn :=
| FileNotFoundError
| FileExistsError
| IsADirectoryError
| NotADirectoryError
| PermissionError
| NameError
| DirectoryNotEmpty
| JSONDecodeError
| UnicodeDecodeError
| OperationalError.

#[global] Instance exn_eq_dec : EqDecision exn.
Proof. solve_decision. Defined.

(** What a path holds. Symbolic links point to files or dangle:
    directories are never reached through a link. An entry's parent is
    expected to be a directory. *)
Inductive node :=
| Regular
| Symlink (target : string)
| Directory.

#[global] Instance node_eq_dec : EqDecision node.
Proof. solve_decision. Defined.

(** What the cache file holds when it is there: a JSON document of the
    cache's shape, text that is not JSON, or bytes that do not decode as
    text. *)
Inductive cache_content :=
| Document (c : sync_cache)
| MalformedJson
| UndecodableBytes.

Inductive log_record :=
| InfoStarting (tag : string)
| WarningCorruptedCache
| InfoSymlinkCreated (target_base source : string)
| InfoFileCopied (target_base source : string)
| ErrorInvalidMethod
| ErrorProcessing (source_base : string) (e : exn)
| InfoRemoving (base : string)
| InfoSyncComplete (tag : string).

Record world := {
  tree : gmap string node;
  (** paths on which a call that changes the tree raises [PermissionError] *)
  denied : gset string;
  (** the content of the cache file *)
  cache_data : cache_content;
  (** the result of the catalog query per tag; [None] when the store
      cannot be opened *)
  db : string -> option catalog;
  log : list log_record
}.

Definition set_tree (f : gmap string node -> gmap string node) (w : world) :=
  {| tree := f (tree w); denied := denied w;
     cache_data := cache_data w; db := db w; log := log w |}.

Definition set_cache_data (c : cache_content) (w : world) :=
  {| tree := tree w; denied := denied w;
     cache_data := c; db := db w; log := log w |}.

Definition add_log (r : log_record) (w : world) :=
  {| tree := tree w; denied := denied w;
     cache_data := cache_data w; db := db w; log := log w ++ [r] |}.

(** ** Computations that may raise *)

Inductive outcome (A : Type) :=
| Ok (a : A)
| Raise (e : exn).
Arguments Ok {A} a.
Arguments Raise {A} e.

Definition M (A : Type) : Type := world -> outcome A * world.

Definition ret {A} (a : A) : M A := fun w => (Ok a, w).

Definition raise {A} (e : exn) : M A := fun w => (Raise e, w).

Definition bind {A B} (m : M A) (k : A -> M B) : M B :=
  fun w =>
    match m w with
    | (Ok a, w') => k a w'
    | (Raise e, w') => (Raise e, w')
    end.

(** [try: m except E as e: h(e)], where [catches e] tells whether [e] is
    an instance of [E]. *)
Definition try_except {A} (catches : exn -> bool) (m : M A) (h : exn -> M A)
  : M A :=
  fun w =>
    match m w with
    | (Ok a, w') => (Ok a, w')
    | (Raise e, w') => if catches e then h e w' else (Raise e, w')
    end.

(** Every exception of the model derives from [Exception]. *)
Definition is_Exception (e : exn) : bool := true.

Definition is_JSONDecodeError (e : exn) : bool :=
  bool_decide (e = JSONDecodeError).

Definition get {A} (f : world -> A) : M A := fun w => (Ok (f w), w).

Definition modify (f : world -> world) : M unit := fun w => (Ok tt, f w).

Definition logging (r : log_record) : M unit := modify (add_log r).

Declare Scope py_scope.
Delimit Scope py_scope with py.
Notation "x <- m ;; k" := (bind m (fun x => k))
  (at level 100, m at next level, right associativity) : py_scope.
Notation "m ;; k" := (bind m (fun _ => k))
  (at level 100, right associativity) : py_scope.
Local Open Scope py_scope.

(** [for x in l: body(x)] *)
Fixpoint for_each {A} (l : list A) (body : A -> M unit) : M unit :=
  match l with
  | [] => ret tt
  | x :: l' => body x ;; for_each l' body
  end.

(** ** The [os] and [shutil] calls of the program *)

Module Os.

(** The kernel gives up on a chain of more than 40 links. *)
Definition max_symlinks : nat := 40.

Fixpoint isfile_fuel (n : nat) (t : gmap string node) (p : string) : bool :=
  match n with
  | O => false
  | S n' =>
      match t !! p with
      | Some Regular => true
      | Some (Symlink q) => isfile_fuel n' t q
      | _ => false
      end
  end.

(** [os.path.isfile(p)] *)
Definition isfile (w : world) (p : string) : bool :=
  isfile_fuel (S max_symlinks) (tree w) p.

(** [os.path.isdir(p)] *)
Definition isdir (w : world) (p : string) : bool :=
  bool_decide (tree w !! p = Some Directory).

(** [os.path.exists(p)]: false for a link that dangles. *)
Definition path_exists (w : world) (p : string) : bool :=
  isfile w p || isdir w p.

(** A directory path without its trailing slashes. *)
Definition norm_dir (d : string) : string :=
  let stripped := PyStr.rev (OsPath.drop_slashes (PyStr.rev d)) in
  if String.eqb stripped "" then d else stripped.

(** The current directory and the root are always there. *)
Definition parent_ok (w : world) (p : string) : bool :=
  let d := OsPath.dirname p in
  String.eqb d "" || String.eqb d "/" || isdir w d.

(** [os.remove(p)] *)
Definition remove (p : string) : M unit :=
  fun w =>
    match tree w !! p with
    | None => (Raise FileNotFoundError, w)
    | Some Directory => (Raise IsADirectoryError, w)
    | Some _ =>
        if bool_decide (p ∈ denied w) then (Raise PermissionError, w)
        else (Ok tt, set_tree (delete p) w)
    end.

(** [os.symlink(src, dst)] *)
Definition symlink (src dst : string) : M unit :=
  fun w =>
    match tree w !! dst with
    | Some _ => (Raise FileExistsError, w)
    | None =>
        if negb (parent_ok w dst) then (Raise FileNotFoundError, w)
        else if bool_decide (dst ∈ denied w) then (Raise PermissionError, w)
        else (Ok tt, set_tree (insert dst (Symlink src)) w)
    end.

(** Opening [p] for writing: afterwards [p] holds a regular file. A link
    that dangles at [p] is replaced by the file, where the system would
    create the file that the link names. *)
Definition create (p : string) : M unit :=
  fun w =>
    if isdir w p then (Raise IsADirectoryError, w)
    else if negb (parent_ok w p) then (Raise FileNotFoundError, w)
    else if bool_decide (p ∈ denied w) then (Raise PermissionError, w)
    else (Ok tt, set_tree (insert p Regular) w).

(** [shutil.copy(src, dst)]: into the directory [dst] when it is one. *)
Definition copy (src dst : string) : M unit :=
  fun w =>
    if isdir w src then (Raise IsADirectoryError, w)
    else if negb (isfile w src) then (Raise FileNotFoundError, w)
    else
      let dst' :=
        if isdir w dst then OsPath.join dst (OsPath.basename src) else dst in
      create dst' w.

(** The proper ancestors of [p], nearest first. *)
Fixpoint ancestors (n : nat) (p : string) : list string :=
  match n with
  | O => []
  | S n' =>
      let d := OsPath.dirname p in
      if (String.eqb d "" || String.eqb d "/" || String.eqb d p)%bool then []
      else d :: ancestors n' d
  end.

Definition mkdir_all (l : list string) (t : gmap string node)
  : gmap string node :=
  foldr (fun d acc => <[d := Directory]> acc) t l.

(** [os.makedirs(d, exist_ok=True)]; the empty path is no directory. *)
Definition makedirs (d : string) : M unit :=
  fun w =>
    let d' := norm_dir d in
    if String.eqb d "" then (Raise FileNotFoundError, w)
    else match tree w !! d' with
    | Some Directory => (Ok tt, w)
    | Some _ => (Raise FileExistsError, w)
    | None =>
        let anc := ancestors (String.length d') d' in
        if existsb (fun a => bool_decide (is_Some (tree w !! a))
                             && negb (isdir w a)) anc
        then (Raise NotADirectoryError, w)
        else if bool_decide (d' ∈ denied w) then (Raise PermissionError, w)
        else (Ok tt, set_tree (mkdir_all (d' :: anc)) w)
    end.

(** [os.listdir(d)], as paths: the entries whose parent is [d]. *)
Definition listdir (w : world) (d : string) : list string :=
  List.filter (fun p => String.eqb (OsPath.dirname p) d && negb (String.eqb p d))
    (elements (dom (tree w))).

(** [os.rmdir(d)] *)
Definition rmdir (d : string) : M unit :=
  fun w =>
    match tree w !! d with
    | None => (Raise FileNotFoundError, w)
    | Some Directory =>
        match listdir w d with
        | _ :: _ => (Raise DirectoryNotEmpty, w)
        | [] =>
            if bool_decide (d ∈ denied w) then (Raise PermissionError, w)
            else (Ok tt, set_tree (delete d) w)
        end
    | Some _ => (Raise NotADirectoryError, w)
    end.

(** Whether [p] lies below the directory [top]; nothing lies below the
    empty path, which [os.walk] cannot scan. *)
Definition below (top p : string) : bool :=
  let prefix := OsPath.join top "" in
  negb (String.eqb top "")
  && PyStr.startswith prefix p && negb (String.eqb p prefix).

(** The paths [os.path.join(root, file)] over all [(root, _, files)] of
    [os.walk(top)]: every entry below [top] that is not a directory. *)
Definition walk_files (w : world) (top : string) : list string :=
  List.filter
    (fun p => below top p && negb (isdir w p))
    (elements (dom (tree w))).

Definition deeper_first (a b : string) : Prop :=
  (String.length b <= String.length a)%nat.

#[global] Instance deeper_first_dec a b : Decision (deeper_first a b).
Proof. unfold deeper_first. apply _. Defined.

(** The paths [os.path.join(root, name)] over all [(root, dirs, _)] of
    [os.walk(top, topdown=False)]: every directory below [top], each one
    after the directories it contains. *)
Definition walk_dirs_bottom_up (w : world) (top : string) : list string :=
  merge_sort deeper_first
    (List.filter (fun p => below top p && isdir w p)
       (elements (dom (tree w)))).

End Os.

(** ** [ComicSyncManager] *)

(** The attributes that [__init__] sets. *)
Record ComicSyncManager := {
  library_path : string;
  output_path : string;
  metadata_cache_file : string;
  log_path : string
}.

(** [ComicSyncManager(library_path, output_path, log_path)]; [None] for the
    default log path. *)
Definition new_manager (library output : string) (log_file : option string)
  : ComicSyncManager :=
  {| library_path := library;
     output_path := output;
     metadata_cache_file := OsPath.join output ".metadata_cache.json";
     log_path := match log_file with
                 | Some (String c l) => String c l
                 | _ => OsPath.join output "sync_log.txt"
                 end |}.

(** Truth value of [book_data['series']]: [None] and [''] are false. *)
Definition series_present (b : book_data) : option string :=
  match series b with
  | Some (String c s) => Some (String c s)
  | _ => None
  end.

(** Truth value of [book_data['series_index']]: [None] and zero are false. *)
Definition index_present (b : book_data) : option spec_float :=
  match series_index b with
  | Some x => if PyFloat.truthy x then Some x else None
  | None => None
  end.

(** [target_folder] in [_get_target_path]. *)
Definition target_folder (self : ComicSyncManager) (b : book_data) : string :=
  match series_present b with
  | Some s => OsPath.join (output_path self) (PyStr.sanitize s)
  | None => OsPath.join (output_path self) "No Series"
  end.

(** [clean_title] at the end of [_get_target_path]. *)
Definition clean_title (b : book_data) : string :=
  let clean := PyStr.sanitize (title b) in
  match series_present b, index_present b with
  | Some _, Some x => PyFloat.format_02_1f x +:+ " - " +:+ clean
  | _, _ => clean
  end.

(** The string that [_get_target_path] returns. *)
Definition target_path (self : ComicSyncManager) (b : book_data)
  (f : format_type) : string :=
  OsPath.join (target_folder self b) (clean_title b +:+ "." +:+ format_str f).

Local Open Scope py_scope.

Definition _get_target_path (self : ComicSyncManager) (b : book_data)
  (f : format_type) : M string :=
  Os.makedirs (target_folder self b) ;;
  ret (target_path self b f).

(** [json.load] on the open cache file. *)
Definition json_load (p : string) : M sync_cache :=
  fun w =>
    if Os.isdir w p then (Raise IsADirectoryError, w)
    else if negb (Os.isfile w p) then (Raise FileNotFoundError, w)
    else match cache_data w with
         | Document c => (Ok c, w)
         | MalformedJson => (Raise JSONDecodeError, w)
         | UndecodableBytes => (Raise UnicodeDecodeError, w)
         end.

Definition _load_metadata_cache (self : ComicSyncManager) : M sync_cache :=
  ex <- get (fun w => Os.path_exists w (metadata_cache_file self)) ;;
  if (ex : bool) then
    try_except is_JSONDecodeError
      (json_load (metadata_cache_file self))
      (fun _ => logging WarningCorruptedCache ;; ret ∅)
  else ret ∅.

Definition _save_metadata_cache (self : ComicSyncManager) (cache : sync_cache)
  : M unit :=
  Os.makedirs (OsPath.dirname (metadata_cache_file self)) ;;
  Os.create (metadata_cache_file self) ;;
  modify (set_cache_data (Document cache)).

(** One element of [to_process]:
    [(source_file, target_file, book_id, book_data, format_type)]. *)
Definition pending : Type := string * string * Z * book_data * format_type.

Definition target_of (j : pending) : string :=
  let '(_, target_file, _, _, _) := j in target_file.

Definition _process_file (method : library_method) (j : pending) : M unit :=
  let '(source_file, target_file, _, _, _) := j in
  try_except is_Exception
    (ex <- get (fun w => Os.path_exists w target_file) ;;
     (if (ex : bool) then Os.remove target_file else ret tt) ;;
     match method with
     | MethodLink =>
         Os.symlink source_file target_file ;;
         logging (InfoSymlinkCreated (OsPath.basename target_file) source_file)
     | MethodCopy =>
         Os.copy source_file target_file ;;
         logging (InfoFileCopied (OsPath.basename target_file) source_file)
     | MethodOther _ => logging ErrorInvalidMethod
     | MethodUnbound => raise NameError
     end)
    (fun e => logging (ErrorProcessing (OsPath.basename source_file) e)).

(** [self._get_metadata_from_db(tag)] *)
Definition _get_metadata_from_db (tag : string) : M catalog :=
  fun w =>
    match db w tag with
    | Some c => (Ok c, w)
    | None => (Raise OperationalError, w)
    end.

(** The test that leaves [needs_update] true. *)
Definition needs_update (w : world) (cached_metadata : sync_cache)
  (book_id : Z) (b : book_data) (f : format_type) (fd : format_data)
  (target_file : string) : bool :=
  match cached_metadata !! PyStr.of_Z book_id with
  | Some cached_book =>
      negb
        (match formats cached_book !! f with
         | Some cached_format =>
             bool_decide (fd_last_modified cached_format = fd_last_modified fd)
         | None => false
         end
         && bool_decide (book_metadata cached_book = book_metadata b)
         && Os.path_exists w target_file)
  | None => true
  end.

(** The [(book_id, book_data, format_type, format_data)] of the two nested
    loops over the catalog, in the order of iteration. *)
Definition pairs (current_metadata : catalog)
  : list (Z * book_data * format_type * format_data) :=
  '(book_id, b) ← map_to_list current_metadata;
  '(f, fd) ← map_to_list (formats b);
  [(book_id, b, f, fd)].

(** The body of the first loop of [sync_tag] for one pair. *)
Definition check_pair (self : ComicSyncManager) (cached_metadata : sync_cache)
  (x : Z * book_data * format_type * format_data) : M (list pending) :=
  let '(book_id, b, f, fd) := x in
  let source_file :=
    OsPath.join (OsPath.join (library_path self) (path b))
      (fd_name fd +:+ "." +:+ format_str f) in
  target_file <- _get_target_path self b f ;;
  update <- get (fun w => needs_update w cached_metadata book_id b f fd target_file) ;;
  ret (if (update : bool) then [(source_file, target_file, book_id, b, f)] else []).

(** [to_process] after the first loop of [sync_tag]. *)
Fixpoint find_updates (self : ComicSyncManager) (cached_metadata : sync_cache)
  (l : list (Z * book_data * format_type * format_data)) : M (list pending) :=
  match l with
  | [] => ret []
  | x :: l' =>
      here <- check_pair self cached_metadata x ;;
      rest <- find_updates self cached_metadata l' ;;
      ret (here ++ rest)%list
  end.

(** [current_files], the set comprehension of [sync_tag]. *)
Fixpoint find_current_files (self : ComicSyncManager)
  (l : list (Z * book_data * format_type * format_data)) : M (gset string) :=
  match l with
  | [] => ret ∅
  | (_, b, f, _) :: l' =>
      p <- _get_target_path self b f ;;
      rest <- find_current_files self l' ;;
      ret ({[ p ]} ∪ rest)
  end.

Definition media_suffixes : list string := [".cbr"; ".cbz"; ".pdf"; ".zip"].

(** [file.lower().endswith(('.cbr', '.cbz', '.pdf', '.zip'))] for the file
    name of the path [p]. *)
Definition is_media (p : string) : bool :=
  PyStr.endswith_any media_suffixes (PyStr.lower (OsPath.basename p)).

(** [existing_files] *)
Definition find_existing_files (self : ComicSyncManager) : M (gset string) :=
  get (fun w =>
    list_to_set (List.filter is_media (Os.walk_files w (output_path self)))).

(** [executor.submit(job)]: the job runs, and what it raises is kept in its
    future. Jobs run in the order of submission. *)
Definition submit (job : M unit) : M (outcome unit) :=
  fun w => let '(o, w') := job w in (Ok o, w').

(** [[f(x) for x in l]] *)
Fixpoint map_m {A B} (f : A -> M B) (l : list A) : M (list B) :=
  match l with
  | [] => ret []
  | x :: l' =>
      y <- f x ;;
      ys <- map_m f l' ;;
      ret (y :: ys)
  end.

(** [future.result()] *)
Definition result (o : outcome unit) : M unit :=
  match o with
  | Ok _ => ret tt
  | Raise e => raise e
  end.

(** [{str(k): v for k, v in current_metadata.items()}] *)
Definition snapshot (current_metadata : catalog) : sync_cache :=
  foldl (fun acc kv => <[PyStr.of_Z kv.1 := kv.2]> acc) ∅
    (map_to_list current_metadata).

(** The first half of [sync_tag], up to [to_remove]. *)
Definition reconcile (self : ComicSyncManager) (current_metadata : catalog)
  (cached_metadata : sync_cache) : M (list pending * gset string) :=
  to_process <- find_updates self cached_metadata (pairs current_metadata) ;;
  current_files <- find_current_files self (pairs current_metadata) ;;
  existing_files <- find_existing_files self ;;
  ret (to_process, existing_files ∖ current_files).

(** The [with ThreadPoolExecutor(...)] block of [sync_tag]. *)
Definition execute (method : library_method) (to_process : list pending)
  (to_remove : gset string) : M unit :=
  (match to_process with
   | [] => ret tt
   | _ =>
       futures <- map_m (fun item => submit (_process_file method item))
                    to_process ;;
       for_each futures result
   end) ;;
  (match elements to_remove with
   | [] => ret tt
   | file_paths =>
       futures <-
         map_m (fun file_path =>
                  future <- submit (Os.remove file_path) ;;
                  logging (InfoRemoving (OsPath.basename file_path)) ;;
                  ret future)
           file_paths ;;
       for_each futures result
   end).

(** The last loop of [sync_tag]. *)
Definition sweep (self : ComicSyncManager) : M unit :=
  found <- get (fun w => Os.walk_dirs_bottom_up w (output_path self)) ;;
  for_each found (fun dir_path =>
    entries <- get (fun w => Os.listdir w dir_path) ;;
    match entries with
    | [] =>
        if negb (PyStr.endswith ".git" dir_path) then Os.rmdir dir_path
        else ret tt
    | _ => ret tt
    end).

(** [sync_tag] up to the point where [to_process] and [to_remove] are
    known. *)
Definition plan (self : ComicSyncManager) (tag : string)
  : M (catalog * list pending * gset string) :=
  logging (InfoStarting tag) ;;
  current_metadata <- _get_metadata_from_db tag ;;
  cached_metadata <- _load_metadata_cache self ;;
  todo <- reconcile self current_metadata cached_metadata ;;
  ret (current_metadata, todo.1, todo.2).

Definition sync_tag (self : ComicSyncManager) (method : library_method)
  (tag : string) : M unit :=
  planned <- plan self tag ;;
  let '(current_metadata, to_process, to_remove) := planned in
  execute method to_process to_remove ;;
  _save_metadata_cache self (snapshot current_metadata) ;;
  sweep self ;;
  logging (InfoSyncComplete tag).

(** ** Sample data *)

Definition batman : book_data :=
  {| title := "Batman"; path := "Bob Kane/Batman (1)";
     series := Some "Detective Comics";
     series_index := Some (S754_finite false 3 0);
     formats := {[ Cbz := {| fd_name := "Batman - Bob Kane";
                             fd_last_modified := Some "2024-01-01 10:00:00+00:00";
                             fd_size := Some 1024 |} ]};
     book_metadata := {| author_sort := Some "Kane, Bob";
                         timestamp := Some "2023-12-31 09:00:00+00:00";
                         pubdate := None |} |}.

Definition annual : book_data :=
  {| title := "Annual"; path := "Bob Kane/Annual (2)";
     series := None;
     series_index := Some (S754_finite false 1 0);
     formats := {[ Cbr := {| fd_name := "Annual - Bob Kane";
                             fd_last_modified := Some "2024-01-02 10:00:00+00:00";
                             fd_size := Some 2048 |} ]};
     book_metadata := {| author_sort := Some "Kane, Bob";
                         timestamp := None; pubdate := None |} |}.

(** [book_data] with [series_index] set to [None]. *)
Definition without_index (b : book_data) : book_data :=
  {| title := title b; path := path b; series := series b;
     series_index := None; formats := formats b;
     book_metadata := book_metadata b |}.

(** [batman] as issue 0.0 of its series. *)
Definition batman_zero : book_data :=
  {| title := title batman; path := path batman; series := series batman;
     series_index := Some (S754_zero false); formats := formats batman;
     book_metadata := book_metadata batman |}.

Definition sample_catalog : catalog := {[ 1 := batman; 2 := annual ]}.

Definition sample_manager : ComicSyncManager :=
  new_manager "/library" "/yac" None.

(** A library that holds the file of [batman] but not the file of
    [annual], and an output tree with a file of an earlier pass. *)
Definition sample_tree : gmap string node :=
  {[ "/library" := Directory;
     "/library/Bob Kane" := Directory;
     "/library/Bob Kane/Batman (1)" := Directory;
     "/library/Bob Kane/Batman (1)/Batman - Bob Kane.cbz" := Regular;
     "/yac" := Directory;
     "/yac/sync_log.txt" := Regular;
     "/yac/Old Series" := Directory;
     "/yac/Old Series/1.0 - Gone.CBZ" := Regular ]}.

Definition sample_world : world :=
  {| tree := sample_tree; denied := ∅; cache_data := MalformedJson;
     db := fun _ => Some sample_catalog; log := [] |}.

(** The output tree with a cache file whose bytes are not text. *)
Definition garbled_world : world :=
  {| tree := <["/yac/.metadata_cache.json" := Regular]> sample_tree;
     denied := ∅; cache_data := UndecodableBytes;
     db := fun _ => Some sample_catalog; log := [] |}.

(** The output tree with a second file of an earlier pass, where deleting
    the first one is not permitted. *)
Definition locked_world : world :=
  {| tree := <["/yac/Old Series/2.0 - Gone too.cbz" := Regular]> sample_tree;
     denied := {[ "/yac/Old Series/1.0 - Gone.CBZ" ]};
     cache_data := MalformedJson;
     db := fun _ => Some sample_catalog; log := [] |}.

(** ** What a step leaves alone *)

(** The entry at [p] when it is not a directory. *)
Definition file_at (w : world) (p : string) : option node :=
  match tree w !! p with
  | Some Directory => None
  | x => x
  end.

(** The parts of the world that only the cache save writes. *)
Definition same_env (w w' : world) : Prop :=
  denied w' = denied w /\ db w' = db w /\ cache_data w' = cache_data w.

(** From [w] to [w'] the entries that are not directories changed at the
    paths of [S] at most, and the directories of [w] are still there. *)
Definition quiet (S : string -> Prop) (w w' : world) : Prop :=
  same_env w w'
  /\ (forall p, ~ S p -> file_at w' p = file_at w p)
  /\ (forall d, tree w !! d = Some Directory -> tree w' !! d = Some Directory).

Definition nowhere : string -> Prop := fun _ => False.

Definition only (p : string) : string -> Prop := fun q => q = p.

(** The target path and the target folder of one pair of the catalog. *)
Definition pair_target (self : ComicSyncManager)
  (x : Z * book_data * format_type * format_data) : string :=
  let '(_, b, f, _) := x in target_path self b f.

Definition pair_folder (self : ComicSyncManager)
  (x : Z * book_data * format_type * format_data) : string :=
  let '(_, b, _, _) := x in target_folder self b.

(** The files that the walk of [sync_tag] collects in [existing_files]. *)
Definition is_existing_media (self : ComicSyncManager) (w : world)
  (p : string) : Prop :=
  is_Some (file_at w p) /\ Os.below (output_path self) p = true
  /\ is_media p = true.

(** From [w] to [w'] entries were only taken away, and a directory was
    taken away only when nothing of [w'] lies directly in it. *)
Definition swept (w w' : world) : Prop :=
  same_env w w'
  /\ (forall q, is_Some (tree w' !! q) -> tree w' !! q = tree w !! q)
  /\ (forall p, file_at w' p = file_at w p)
  /\ (forall d, is_Some (tree w !! d) -> tree w' !! d = None ->
        forall c, OsPath.dirname c = d -> c <> d -> tree w' !! c = None).

(** Whether no character of [s] is a slash. *)
Fixpoint no_slash (s : string) : bool :=
  match s with
  | EmptyString => true
  | String c s' => negb (Ascii.eqb c "/") && no_slash s'
  end.

(** The file name that [_get_target_path] puts in the target folder. *)
Definition target_name (b : book_data) (f : format_type) : string :=
  clean_title b +:+ "." +:+ format_str f.

(** From [w] to [w'] no file other than a media file was taken away, and
    no directory. *)
Definition kept (w w' : world) : Prop :=
  (forall p, is_media p = false ->
     is_Some (file_at w p) -> is_Some (file_at w' p))
  /\ (forall d, tree w !! d = Some Directory -> tree w' !! d = Some Directory).


(** ** The rows of the catalog query *)

(** One row of [cursor.fetchall()] in [_get_metadata_from_db], column by
    column; [row_format] is [row[5].lower()], which the [WHERE] clause
    restricts to [cbr] and [cbz]. *)
Record row := {
  row_id : Z;
  row_title : string;
  row_path : string;
  row_series : option string;
  row_series_index : option spec_float;
  row_format : format_type;
  row_name : string;
  row_last_modified : option string;
  row_title_sort : option string;
  row_author_sort : option string;
  row_timestamp : option string;
  row_pubdate : option string;
  row_size : option Z
}.

(** The dictionary stored under a [book_id] that is not yet in [result]. *)
Definition book_of_row (r : row) : book_data :=
  {| title := row_title r;
     path := row_path r;
     series := row_series r;
     series_index := row_series_index r;
     formats := ∅;
     book_metadata := {| author_sort := row_author_sort r;
                         timestamp := row_timestamp r;
                         pubdate := row_pubdate r |} |}.

(** The dictionary stored under [row[5].lower()]. *)
Definition format_of_row (r : row) : format_data :=
  {| fd_name := row_name r;
     fd_last_modified := row_last_modified r;
     fd_size := row_size r |}.

Definition set_formats (fm : gmap format_type format_data) (b : book_data)
  : book_data :=
  {| title := title b; path := path b; series := series b;
     series_index := series_index b; formats := fm;
     book_metadata := book_metadata b |}.

(** The body of the loop over the rows. *)
Definition add_row (result : catalog) (r : row) : catalog :=
  let result1 :=
    match result !! row_id r with
    | Some _ => result
    | None => <[row_id r := book_of_row r]> result
    end in
  match result1 !! row_id r with
  | Some b =>
      <[row_id r :=
          set_formats (<[row_format r := format_of_row r]> (formats b)) b]>
        result1
  | None => result1
  end.

(** [result] at the end of [_get_metadata_from_db] for the given rows. *)
Definition collect_rows (rows : list row) : catalog := foldl add_row ∅ rows.

(** Two dictionaries of a book that differ in their formats at most. *)
Definition same_item (b b' : book_data) : Prop :=
  title b' = title b /\ path b' = path b /\ series b' = series b
  /\ series_index b' = series_index b /\ book_metadata b' = book_metadata b.

(** Three rows as the query returns them for the sample catalog: the first
    book in two formats and the second book in one. *)
Definition sample_row (k : Z) (t : string) (s : option string)
  (f : format_type) (n : string) : row :=
  {| row_id := k; row_title := t; row_path := "Bob Kane/" +:+ t;
     row_series := s; row_series_index := Some (S754_finite false 3 0);
     row_format := f; row_name := n;
     row_last_modified := Some "2024-01-01 10:00:00+00:00";
     row_title_sort := Some t; row_author_sort := Some "Kane, Bob";
     row_timestamp := None; row_pubdate := None; row_size := Some 1024 |}.

Definition sample_rows : list row :=
  [ sample_row 1 "Batman" (Some "Detective Comics") Cbz "Batman - Bob Kane";
    sample_row 1 "Batman again" None Cbr "Batman - Bob Kane";
    sample_row 2 "Annual" None Cbr "Annual - Bob Kane" ].

(** Whether every character of [s] satisfies [p]. *)
Fixpoint all_chars (p : ascii -> bool) (s : string) : bool :=
  match s with
  | EmptyString => true
  | String c s' => p c && all_chars p s'
  end.

(** The characters that [_get_target_path] keeps in a title or a series. *)
Definition is_kept (c : ascii) : bool :=
  PyStr.isalnum c || PyStr.is_separator c.

(** The name of the folder of a book under the output root. *)
Definition folder_name (b : book_data) : string :=
  match series_present b with
  | Some s => PyStr.sanitize s
  | None => "No Series"
  end.

(** The sample output tree with a cache file that does not hold JSON. *)
Definition malformed_world : world :=
  set_tree (insert "/yac/.metadata_cache.json" Regular) sample_world.



(** From [w] to [w'] nothing that is outside the directory [top] changed
    or went away. *)
Definition outside_kept (top : string) (w w' : world) : Prop :=
  forall p, Os.below top p = false ->
            is_Some (tree w !! p) -> tree w' !! p = tree w !! p.


(** The source path of one pair of the catalog and its entry of
    [to_process], as the first loop of [sync_tag] builds them. *)
Definition pair_source (self : ComicSyncManager)
  (x : Z * book_data * format_type * format_data) : string :=
  let '(_, b, f, fd) := x in
  OsPath.join (OsPath.join (library_path self) (path b))
    (fd_name fd +:+ "." +:+ format_str f).

Definition pair_entry (self : ComicSyncManager)
  (x : Z * book_data * format_type * format_data) : pending :=
  let '(book_id, b, f, _) := x in
  (pair_source self x, pair_target self x, book_id, b, f).

Definition source_of (j : pending) : string :=
  let '(source_file, _, _, _, _) := j in source_file.

(** The paths where deriving target paths can create a directory: a
    target folder, or a path that is no longer than the output root with
    its slash. *)
Definition plan_directory (self : ComicSyncManager) (p : string) : Prop :=
  (String.length p <= String.length (OsPath.join (output_path self) ""))%nat
  \/ exists b, p = Os.norm_dir (target_folder self b).

(** From [w] to [w'] directories appeared at such paths only. *)
Definition dirs_from (self : ComicSyncManager) (w w' : world) : Prop :=
  forall p, tree w' !! p = Some Directory ->
            tree w !! p = Some Directory \/ plan_directory self p.


(** What the link of one entry of [to_process] needs to go through. *)
Definition linkable (w : world) (j : pending) : Prop :=
  tree w !! target_of j <> Some Directory
  /\ tree w !! OsPath.dirname (target_of j) = Some Directory
  /\ target_of j ∉ denied w.

(** * Properties *)

(** ** Running computations *)

Lemma bind_ok {A B} (m : M A) (k : A -> M B) w a w1 :
  m w = (Ok a, w1) -> bind m k w = k a w1.
Proof. intros H. unfold bind. rewrite H. reflexivity. Qed.

Lemma bind_raise {A B} (m : M A) (k : A -> M B) w e w1 :
  m w = (Raise e, w1) -> bind m k w = (Raise e, w1).
Proof. intros H. unfold bind. rewrite H. reflexivity. Qed.


Lemma append_inv_head (a b c : string) : a +:+ b = a +:+ c -> b = c.
Proof.
  induction a as [|x a IH]; cbn; intros H; [exact H|].
  injection H as H. exact (IH H).
Qed.

(** ** Path derivation *)

Lemma get_target_path_run self b f w :
  _get_target_path self b f w =
  match Os.makedirs (target_folder self b) w with
  | (Ok _, w1) => (Ok (target_path self b f), w1)
  | (Raise e, w1) => (Raise e, w1)
  end.
Proof. unfold _get_target_path, bind, ret. reflexivity. Qed.

(** C2, evaluated on the code: the item titled Batman of the series
    Detective Comics with index 3.0 in format cbz derives the file name
    [3.0 - Batman.cbz] in the folder of its series, with one integer digit,
    and not [03.0 - Batman.cbz]: the width 2 of [02.1f] counts every
    character of [3.0]. The item titled Annual without a series in format
    cbr derives [Annual.cbr] in the folder [No Series]. *)
Theorem C2_target_path_scenarios (library output : string) :
  let self := new_manager library output None in
  target_path self batman Cbz =
    OsPath.join (OsPath.join output "Detective Comics") "3.0 - Batman.cbz"
  /\ target_path self batman Cbz <>
    OsPath.join (OsPath.join output "Detective Comics") "03.0 - Batman.cbz"
  /\ target_path self annual Cbr =
    OsPath.join (OsPath.join output "No Series") "Annual.cbr".
Proof.
  cbv zeta. repeat split.
  change (target_path (new_manager library output None) batman Cbz)
    with (OsPath.join (OsPath.join output "Detective Comics")
            "3.0 - Batman.cbz").
  generalize (OsPath.join output "Detective Comics"). intros folder H.
  unfold OsPath.join in H. cbn [PyStr.startswith Ascii.eqb Bool.eqb andb] in H.
  destruct (String.eqb folder "" || PyStr.endswith "/" folder)%bool;
    apply append_inv_head in H; discriminate.
Qed.

(** C8: with a series present and a series index of zero (either sign),
    the file name is the sanitized title and the format with no index
    prefix, and the derived path, as well as the whole call, is the one of
    the same item without a series index. *)
Theorem C8_zero_index_no_prefix self b f s sg :
  series_present b = Some s ->
  series_index b = Some (S754_zero sg) ->
  target_path self b f =
    OsPath.join (OsPath.join (output_path self) (PyStr.sanitize s))
      (PyStr.sanitize (title b) +:+ "." +:+ format_str f)
  /\ target_path self b f = target_path self (without_index b) f
  /\ forall w,
       _get_target_path self b f w =
       _get_target_path self (without_index b) f w.
Proof.
  intros Hs Hi.
  assert (Hfolder : target_folder self (without_index b) = target_folder self b)
    by reflexivity.
  assert (Htitle : clean_title b = PyStr.sanitize (title b)).
  { unfold clean_title, index_present. rewrite Hs, Hi. reflexivity. }
  assert (Htitle' : clean_title (without_index b) = PyStr.sanitize (title b)).
  { unfold clean_title, index_present. cbn. destruct (series_present _); reflexivity. }
  assert (Hpath : target_path self b f = target_path self (without_index b) f).
  { unfold target_path. rewrite Hfolder, Htitle, Htitle'. reflexivity. }
  split; [|split].
  - unfold target_path, target_folder. rewrite Htitle, Hs. reflexivity.
  - exact Hpath.
  - intros w. rewrite !get_target_path_run, Hfolder, Hpath. reflexivity.
Qed.

Lemma C8_zero_index_no_prefix_witness :
  target_path sample_manager batman_zero Cbz = "/yac/Detective Comics/Batman.cbz".
Proof.
  destruct (C8_zero_index_no_prefix sample_manager batman_zero Cbz
              "Detective Comics" false eq_refl eq_refl) as [H _].
  rewrite H. reflexivity.
Defined.

(** ** The materialization worker *)

(** C9: for every method, every tuple and every state of the world,
    [_process_file] returns normally: whatever the removal of the old
    target, the link or the copy raises is caught inside. *)
Theorem C9_process_file_never_raises method (j : pending) w :
  exists w', _process_file method j w = (Ok tt, w').
Proof.
  destruct j as [[[[source_file target_file] book_id] b] f].
  unfold _process_file, try_except.
  match goal with |- context [match ?m w with _ => _ end] =>
    destruct (m w) as [[[]|e] w1] end.
  - eexists. reflexivity.
  - cbn. eexists. reflexivity.
Qed.

(** ** Loading the cache *)

Lemma isfile_not_dir w p : Os.isfile w p = true -> Os.isdir w p = false.
Proof.
  unfold Os.isfile, Os.isdir. cbn [Os.isfile_fuel].
  destruct (tree w !! p) as [[]|]; intros H; try discriminate;
    apply bool_decide_eq_false; intros E; discriminate.
Qed.


Lemma load_cache_present self w :
  Os.isfile w (metadata_cache_file self) = true ->
  _load_metadata_cache self w =
  match cache_data w with
  | Document c => (Ok c, w)
  | MalformedJson => (Ok ∅, add_log WarningCorruptedCache w)
  | UndecodableBytes => (Raise UnicodeDecodeError, w)
  end.
Proof.
  intros H. unfold _load_metadata_cache, bind, get, Os.path_exists.
  rewrite H. cbn [orb]. unfold try_except, json_load.
  rewrite (isfile_not_dir _ _ H), H. cbn [negb].
  destruct (cache_data w); reflexivity.
Qed.

(** C7, evaluated on the code: with a cache file whose bytes do not decode
    as text, loading the cache raises [UnicodeDecodeError], which the
    handler for [JSONDecodeError] does not catch, and the pass ends with
    that exception before anything is materialized or saved: the target
    of the first item is not there and the cache file is as it was. *)
Theorem C7_undecodable_cache_raises :
  _load_metadata_cache sample_manager garbled_world
    = (Raise UnicodeDecodeError, garbled_world)
  /\ (sync_tag sample_manager MethodCopy "Comics" garbled_world).1
    = Raise UnicodeDecodeError
  /\ tree (sync_tag sample_manager MethodCopy "Comics" garbled_world).2
       !! target_path sample_manager batman Cbz = None
  /\ cache_data (sync_tag sample_manager MethodCopy "Comics" garbled_world).2
    = UndecodableBytes.
Proof.
  split; [|split; [|split]].
  - rewrite load_cache_present by (vm_compute; reflexivity). reflexivity.
  - vm_compute. reflexivity.
  - vm_compute. reflexivity.
  - vm_compute. reflexivity.
Qed.

(** ** The reconciler *)



(** ** Failures in the two phases *)

(** C5, evaluated on the code: two files of an earlier pass are to be
    removed and [os.remove] raises [PermissionError] on one of them. The
    failed copy of the materialization phase is caught and logged and the
    other copy is made, and the other file is removed; but the exception of
    [os.remove] leaves [sync_tag] at [future.result()], so the cache is not
    saved (no cache file is written) and the pass does not reach its end. *)
Theorem C5_removal_failure_aborts_pass :
  let r := sync_tag sample_manager MethodCopy "Comics" locked_world in
  r.1 = Raise PermissionError
  /\ log r.2 =
       [InfoStarting "Comics";
        ErrorProcessing "Annual - Bob Kane.cbr" FileNotFoundError;
        InfoFileCopied "3.0 - Batman.cbz"
          "/library/Bob Kane/Batman (1)/Batman - Bob Kane.cbz";
        InfoRemoving "1.0 - Gone.CBZ";
        InfoRemoving "2.0 - Gone too.cbz"]
  /\ tree r.2 !! "/yac/Detective Comics/3.0 - Batman.cbz" = Some Regular
  /\ tree r.2 !! "/yac/Old Series/2.0 - Gone too.cbz" = None
  /\ tree r.2 !! "/yac/Old Series/1.0 - Gone.CBZ" = Some Regular
  /\ tree r.2 !! metadata_cache_file sample_manager = None
  /\ cache_data r.2 = cache_data locked_world.
Proof.
  cbv zeta. repeat split; vm_compute; reflexivity.
Qed.

(** ** Frame properties of the steps *)

Lemma same_env_refl w : same_env w w.
Proof. repeat split. Qed.

Lemma same_env_trans w1 w2 w3 :
  same_env w1 w2 -> same_env w2 w3 -> same_env w1 w3.
Proof.
  intros (A1 & B1 & C1) (A2 & B2 & C2).
  repeat split; congruence.
Qed.

Lemma quiet_refl S w : quiet S w w.
Proof. split; [apply same_env_refl|]. split; auto. Qed.

Lemma quiet_trans S w1 w2 w3 :
  quiet S w1 w2 -> quiet S w2 w3 -> quiet S w1 w3.
Proof.
  intros (E1 & F1 & D1) (E2 & F2 & D2).
  split; [eapply same_env_trans; eassumption|]. split.
  - intros p Hp. rewrite F2, F1; auto.
  - auto.
Qed.

Lemma quiet_weaken (S S' : string -> Prop) w w' :
  (forall p, S p -> S' p) -> quiet S w w' -> quiet S' w w'.
Proof.
  intros Hsub (E & F & D). split; [exact E|]. split; [|exact D].
  intros p Hp. apply F. intros HS. apply Hp, Hsub, HS.
Qed.

Lemma quiet_add_log S r w : quiet S w (add_log r w).
Proof. split; [repeat split|]. split; auto. Qed.

Lemma file_at_insert_ne w p q n :
  q <> p -> file_at (set_tree (insert p n) w) q = file_at w q.
Proof.
  intros Hne. unfold file_at. cbn. rewrite lookup_insert_ne by congruence.
  reflexivity.
Qed.

Lemma file_at_delete_ne w p q :
  q <> p -> file_at (set_tree (delete p) w) q = file_at w q.
Proof.
  intros Hne. unfold file_at. cbn. rewrite lookup_delete_ne by congruence.
  reflexivity.
Qed.

Lemma remove_spec p w o w' :
  Os.remove p w = (o, w') ->
  quiet (only p) w w'
  /\ (o = Ok tt -> tree w' !! p = None)
  /\ (forall q, is_Some (tree w' !! q) -> tree w' !! q = tree w !! q).
Proof.
  unfold Os.remove. intros H.
  destruct (tree w !! p) as [n|] eqn:Hp.
  2:{ injection H as <- <-. split; [apply quiet_refl|]. split; [discriminate|auto]. }
  assert (Hstay : (o, w') = (Raise IsADirectoryError, w)
                  \/ (o, w') = (Raise PermissionError, w)
                  \/ (n <> Directory /\ (o, w') = (Ok tt, set_tree (delete p) w))).
  { destruct n; [ | |left; congruence];
      (destruct (bool_decide (p ∈ denied w));
       [right; left; congruence | right; right; split; [discriminate|congruence]]). }
  clear H. destruct Hstay as [H|[H|[Hn H]]]; injection H as -> ->.
  - split; [apply quiet_refl|]. split; [discriminate|auto].
  - split; [apply quiet_refl|]. split; [discriminate|auto].
  - split; [|split].
    + split; [repeat split|]. split.
      * intros q Hq. apply file_at_delete_ne. exact Hq.
      * intros d Hd. cbn. rewrite lookup_delete_ne; [exact Hd|].
        intros ->. rewrite Hp in Hd. congruence.
    + intros _. cbn. apply lookup_delete_eq.
    + intros q [x Hx]. cbn in *. destruct (decide (q = p)) as [->|Hne].
      * rewrite lookup_delete_eq in Hx. discriminate.
      * rewrite lookup_delete_ne by congruence. reflexivity.
Qed.

Lemma insert_file_quiet w p n :
  n <> Directory ->
  tree w !! p <> Some Directory ->
  quiet (only p) w (set_tree (insert p n) w).
Proof.
  intros Hn Hp. split; [repeat split|]. split.
  - intros q Hq. apply file_at_insert_ne. exact Hq.
  - intros d Hd. cbn. rewrite lookup_insert_ne; [exact Hd|].
    intros ->. contradiction.
Qed.

Lemma symlink_spec src dst w o w' :
  Os.symlink src dst w = (o, w') -> quiet (only dst) w w'.
Proof.
  unfold Os.symlink. intros H.
  destruct (tree w !! dst) eqn:Hd.
  { injection H as <- <-. apply quiet_refl. }
  destruct (negb (Os.parent_ok w dst)).
  { injection H as <- <-. apply quiet_refl. }
  destruct (bool_decide (dst ∈ denied w)); injection H as <- <-.
  - apply quiet_refl.
  - apply insert_file_quiet; [discriminate|]. rewrite Hd. discriminate.
Qed.

Lemma create_spec p w o w' :
  Os.create p w = (o, w') ->
  quiet (only p) w w' /\ (o = Ok tt -> tree w' !! p = Some Regular).
Proof.
  unfold Os.create. intros H.
  destruct (Os.isdir w p) eqn:Hd.
  { injection H as <- <-. split; [apply quiet_refl|discriminate]. }
  destruct (negb (Os.parent_ok w p)).
  { injection H as <- <-. split; [apply quiet_refl|discriminate]. }
  destruct (bool_decide (p ∈ denied w)); injection H as <- <-.
  - split; [apply quiet_refl|discriminate].
  - split.
    + apply insert_file_quiet; [discriminate|].
      unfold Os.isdir in Hd. apply bool_decide_eq_false in Hd. exact Hd.
    + intros _. cbn. apply lookup_insert_eq.
Qed.

Lemma copy_spec src dst w o w' :
  Os.copy src dst w = (o, w') ->
  Os.isdir w dst = false ->
  quiet (only dst) w w'.
Proof.
  unfold Os.copy. intros H Hd. rewrite Hd in H.
  destruct (Os.isdir w src).
  { injection H as <- <-. apply quiet_refl. }
  destruct (negb (Os.isfile w src)).
  { injection H as <- <-. apply quiet_refl. }
  apply create_spec in H. apply H.
Qed.

Lemma isdir_false_of_none w p : tree w !! p = None -> Os.isdir w p = false.
Proof.
  intros H. unfold Os.isdir. apply bool_decide_eq_false. rewrite H. discriminate.
Qed.

Lemma path_exists_false_not_dir w p :
  Os.path_exists w p = false -> Os.isdir w p = false.
Proof.
  unfold Os.path_exists. intros H. apply orb_false_iff in H. apply H.
Qed.

(** The method of [_process_file], once the old target is out of the way. *)
Lemma materialize_quiet method source_file target_file w o w' :
  Os.isdir w target_file = false ->
  match method with
  | MethodLink =>
      Os.symlink source_file target_file ;;
      logging (InfoSymlinkCreated (OsPath.basename target_file) source_file)
  | MethodCopy =>
      Os.copy source_file target_file ;;
      logging (InfoFileCopied (OsPath.basename target_file) source_file)
  | MethodOther _ => logging ErrorInvalidMethod
  | MethodUnbound => raise NameError
  end w = (o, w') ->
  quiet (only target_file) w w'.
Proof.
  intros Hd H. destruct method.
  - unfold bind in H.
    destruct (Os.symlink source_file target_file w) as [[[]|e] w1] eqn:Hs;
      apply symlink_spec in Hs.
    + injection H as <- <-. eapply quiet_trans; [exact Hs|apply quiet_add_log].
    + injection H as <- <-. exact Hs.
  - unfold bind in H.
    destruct (Os.copy source_file target_file w) as [[[]|e] w1] eqn:Hs;
      apply copy_spec in Hs; try exact Hd.
    + injection H as <- <-. eapply quiet_trans; [exact Hs|apply quiet_add_log].
    + injection H as <- <-. exact Hs.
  - injection H as <- <-. apply quiet_add_log.
  - injection H as <- <-. apply quiet_refl.
Qed.

Lemma process_file_quiet method (j : pending) w :
  exists w',
    _process_file method j w = (Ok tt, w')
    /\ quiet (only (target_of j)) w w'.
Proof.
  destruct j as [[[[source_file target_file] book_id] b] f].
  unfold _process_file, target_of, try_except.
  match goal with |- context [match ?m w with _ => _ end] =>
    destruct (m w) as [o w1] eqn:Hrun;
    assert (Hq : quiet (only target_file) w w1)
  end.
  { unfold bind at 1, get in Hrun.
    destruct (Os.path_exists w target_file) eqn:Hex.
    - unfold bind at 1 in Hrun.
      destruct (Os.remove target_file w) as [[[]|e] w2] eqn:Hrm;
        apply remove_spec in Hrm as (Hq & Hnone & _).
      + eapply quiet_trans; [exact Hq|].
        eapply materialize_quiet; [|exact Hrun].
        apply isdir_false_of_none, Hnone. reflexivity.
      + injection Hrun as <- <-. exact Hq.
    - unfold bind at 1, ret in Hrun.
      eapply materialize_quiet; [|exact Hrun].
      apply path_exists_false_not_dir, Hex. }
  destruct o as [[]|e].
  - exists w1. split; [reflexivity|exact Hq].
  - cbn. eexists. split; [reflexivity|].
    eapply quiet_trans; [exact Hq|apply quiet_add_log].
Qed.

(** The materialization phase: every future holds a normal return. *)
Lemma process_all_quiet method (l : list pending) w :
  exists futures w',
    map_m (fun item => submit (_process_file method item)) l w
      = (Ok futures, w')
    /\ Forall (fun o => o = Ok tt) futures
    /\ quiet (fun p => p ∈ target_of <$> l) w w'.
Proof.
  revert w. induction l as [|j l IH]; intros w.
  - exists [], w. split; [reflexivity|]. split; [constructor|apply quiet_refl].
  - destruct (process_file_quiet method j w) as (w1 & Hj & Hq1).
    destruct (IH w1) as (futures & w2 & Hl & Hall & Hq2).
    exists (Ok tt :: futures), w2. split; [|split].
    + cbn [map_m]. erewrite bind_ok.
      2:{ unfold submit. rewrite Hj. reflexivity. }
      erewrite bind_ok by exact Hl. reflexivity.
    + constructor; [reflexivity|exact Hall].
    + eapply quiet_trans.
      * eapply quiet_weaken; [|exact Hq1].
        intros p ->. rewrite fmap_cons. apply list_elem_of_here.
      * eapply quiet_weaken; [|exact Hq2].
        intros p Hp. rewrite fmap_cons. apply list_elem_of_further, Hp.
Qed.

Lemma results_all_ok (futures : list (outcome unit)) w :
  Forall (fun o => o = Ok tt) futures ->
  for_each futures result w = (Ok tt, w).
Proof.
  induction 1 as [|o l Ho _ IH]; [reflexivity|].
  subst o. cbn. unfold bind, ret. exact IH.
Qed.

Lemma results_inv (futures : list (outcome unit)) w o w' :
  for_each futures result w = (o, w') ->
  w' = w /\ (o = Ok tt -> Forall (fun x => x = Ok tt) futures).
Proof.
  revert o. induction futures as [|x l IH]; intros o H.
  - injection H as <- <-. split; [reflexivity|constructor].
  - cbn in H. unfold bind in H. destruct x as [[]|e]; cbn in H.
    + apply IH in H as [-> Hall]. split; [reflexivity|].
      intros Ho. constructor; [reflexivity|auto].
    + injection H as <- <-. split; [reflexivity|discriminate].
Qed.

(** The removal phase: what was removed stays removed, and nothing else
    that is not a directory changes. *)
Lemma remove_all_spec (l : list string) w :
  exists futures w',
    map_m (fun file_path =>
             future <- submit (Os.remove file_path) ;;
             logging (InfoRemoving (OsPath.basename file_path)) ;;
             ret future) l w
      = (Ok futures, w')
    /\ quiet (fun p => p ∈ l) w w'
    /\ (forall q, is_Some (tree w' !! q) -> tree w' !! q = tree w !! q)
    /\ (Forall (fun o => o = Ok tt) futures ->
        forall p, p ∈ l -> tree w' !! p = None).
Proof.
  revert w. induction l as [|p l IH]; intros w.
  - exists [], w. split; [reflexivity|]. split; [apply quiet_refl|].
    split; [auto|]. intros _ p Hp. apply elem_of_nil in Hp. destruct Hp.
  - destruct (Os.remove p w) as [o w1] eqn:Hrm.
    pose proof (remove_spec _ _ _ _ Hrm) as (Hq1 & Hnone & Hshrink1).
    set (w1' := add_log (InfoRemoving (OsPath.basename p)) w1).
    destruct (IH w1') as (futures & w2 & Hl & Hq2 & Hshrink2 & Hgone).
    exists (o :: futures), w2. split; [|split; [|split]].
    + cbn [map_m]. erewrite bind_ok.
      2:{ unfold bind, submit, logging, modify, ret. rewrite Hrm. reflexivity. }
      fold w1'. erewrite bind_ok by exact Hl. reflexivity.
    + eapply quiet_trans; [|eapply quiet_weaken; [|exact Hq2]].
      * eapply quiet_trans; [|apply quiet_add_log].
        eapply quiet_weaken; [|exact Hq1]. intros q ->. apply list_elem_of_here.
      * intros q Hq. apply list_elem_of_further, Hq.
    + intros q Hq. rewrite (Hshrink2 q Hq).
      apply Hshrink1. change (tree w1 !! q) with (tree w1' !! q).
      rewrite <- (Hshrink2 q Hq). exact Hq.
    + intros Hall q Hq. inversion Hall as [|? ? Ho Hrest]; subst.
      apply elem_of_cons in Hq as [->|Hq]; [|apply Hgone; assumption].
      destruct (tree w2 !! p) as [n|] eqn:Hp; [|reflexivity].
      rewrite <- Hp, (Hshrink2 p) by (rewrite Hp; eauto).
      apply Hnone. reflexivity.
Qed.

Lemma lookup_mkdir_all (l : list string) (t : gmap string node) p :
  Os.mkdir_all l t !! p = if decide (p ∈ l) then Some Directory else t !! p.
Proof.
  unfold Os.mkdir_all. induction l as [|d l IH]; cbn [foldr].
  - rewrite decide_False; [reflexivity|]. apply not_elem_of_nil.
  - destruct (decide (p = d)) as [->|Hne].
    + rewrite lookup_insert_eq, decide_True; [reflexivity|apply list_elem_of_here].
    + rewrite lookup_insert_ne by congruence. rewrite IH.
      destruct (decide (p ∈ l)) as [Hin|Hout].
      * rewrite decide_True; [reflexivity|apply list_elem_of_further, Hin].
      * rewrite decide_False; [reflexivity|].
        intros Hin. apply elem_of_cons in Hin as [?|?]; contradiction.
Qed.

Lemma makedirs_spec d w o w' :
  Os.makedirs d w = (o, w') ->
  quiet nowhere w w'
  /\ (o = Ok tt -> d <> "" /\ tree w' !! Os.norm_dir d = Some Directory)
  /\ (d <> "" -> tree w !! Os.norm_dir d = Some Directory ->
      o = Ok tt /\ w' = w).
Proof.
  unfold Os.makedirs. intros H.
  destruct (String.eqb_spec d "") as [Hempty|Hfull].
  { injection H as <- <-. split; [apply quiet_refl|].
    split; [intros E; discriminate|intros E; contradiction]. }
  destruct (tree w !! Os.norm_dir d) as [n|] eqn:Hd.
  { destruct n; cbv beta iota zeta in H; inversion H; subst o w'.
    - split; [apply quiet_refl|]. split; [intros E|intros _ E]; discriminate.
    - split; [apply quiet_refl|]. split; [intros E|intros _ E]; discriminate.
    - split; [apply quiet_refl|]. split; [intros _; split; assumption|].
      intros _ _. split; reflexivity. }
  match type of H with (if existsb ?f ?l then _ else _) = _ =>
    set (anc := l) in *; destruct (existsb f anc) eqn:Hanc end.
  { injection H as <- <-. split; [apply quiet_refl|].
    split; [intros E|intros _ E]; discriminate. }
  destruct (bool_decide (Os.norm_dir d ∈ denied w)); injection H as <- <-.
  { split; [apply quiet_refl|]. split; [intros E|intros _ E]; discriminate. }
  assert (Hold : forall p, p ∈ Os.norm_dir d :: anc ->
                           tree w !! p = None \/ tree w !! p = Some Directory).
  { intros p Hp. apply elem_of_cons in Hp as [->|Hp]; [left; exact Hd|].
    destruct (tree w !! p) as [n|] eqn:Hlook; [|left; reflexivity].
    right. destruct n; try reflexivity; exfalso;
      (assert (Hex : existsb
                (fun a => bool_decide (is_Some (tree w !! a)) && negb (Os.isdir w a))
                anc = true);
       [apply existsb_exists; exists p; split;
        [apply list_elem_of_In, Hp|];
        unfold Os.isdir; rewrite Hlook;
        rewrite bool_decide_eq_true_2 by eauto;
        rewrite bool_decide_eq_false_2 by discriminate; reflexivity
       | rewrite Hanc in Hex; discriminate]). }
  split; [|split].
  - split; [repeat split|]. split.
    + intros p _. unfold file_at. cbn [tree set_tree]. rewrite lookup_mkdir_all.
      destruct (decide (p ∈ Os.norm_dir d :: anc)) as [Hin|Hout]; [|reflexivity].
      destruct (Hold p Hin) as [-> | ->]; reflexivity.
    + intros p Hp. cbn [tree set_tree]. rewrite lookup_mkdir_all.
      destruct (decide (p ∈ Os.norm_dir d :: anc)); [reflexivity|exact Hp].
  - intros _. split; [exact Hfull|]. cbn [tree set_tree].
    rewrite lookup_mkdir_all.
    rewrite decide_True; [reflexivity|apply list_elem_of_here].
  - intros _ E; discriminate.
Qed.

Lemma get_target_path_spec self b f w o w' :
  _get_target_path self b f w = (o, w') ->
  quiet nowhere w w'
  /\ (forall t, o = Ok t ->
        t = target_path self b f
        /\ tree w' !! Os.norm_dir (target_folder self b) = Some Directory).
Proof.
  rewrite get_target_path_run. intros H.
  destruct (Os.makedirs (target_folder self b) w) as [[[]|e] w1] eqn:Hm;
    apply makedirs_spec in Hm as (Hq & Hdir & _); injection H as <- <-.
  - split; [exact Hq|]. intros t Ht. injection Ht as <-.
    split; [reflexivity|]. apply Hdir. reflexivity.
  - split; [exact Hq|]. intros t Ht. discriminate.
Qed.

Lemma get_target_path_stable self b f w :
  target_folder self b <> "" ->
  tree w !! Os.norm_dir (target_folder self b) = Some Directory ->
  _get_target_path self b f w = (Ok (target_path self b f), w).
Proof.
  intros Hne Hd. rewrite get_target_path_run.
  destruct (Os.makedirs (target_folder self b) w) as [o w1] eqn:Hm.
  apply makedirs_spec in Hm as (_ & _ & Hsame).
  destruct (Hsame Hne Hd) as [-> ->]. reflexivity.
Qed.

(** ** The reconciler, step by step *)

Lemma check_pair_spec self cached x w o w' :
  check_pair self cached x w = (o, w') ->
  quiet nowhere w w'
  /\ (forall found, o = Ok found ->
        (forall j, j ∈ found -> target_of j = pair_target self x)
        /\ tree w' !! Os.norm_dir (pair_folder self x) = Some Directory).
Proof.
  destruct x as [[[book_id b] f] fd]. unfold check_pair. intros H.
  unfold bind at 1 in H.
  destruct (_get_target_path self b f w) as [[t|e] w1] eqn:Ht;
    apply get_target_path_spec in Ht as (Hq & Hok).
  - unfold bind, get, ret in H. injection H as <- <-.
    split; [exact Hq|]. intros found Hf. injection Hf as <-.
    destruct (Hok t eq_refl) as [-> Hdir]. split; [|exact Hdir].
    intros j Hj. destruct (needs_update _ _ _ _ _ _ _).
    + apply list_elem_of_singleton in Hj. subst j. reflexivity.
    + apply elem_of_nil in Hj. destruct Hj.
  - injection H as <- <-. split; [exact Hq|]. intros found Hf. discriminate.
Qed.

Lemma find_updates_spec self cached l w o w' :
  find_updates self cached l w = (o, w') ->
  quiet nowhere w w'
  /\ (forall to_process, o = Ok to_process ->
        (forall j, j ∈ to_process ->
           exists x, x ∈ l /\ target_of j = pair_target self x)
        /\ (forall x, x ∈ l ->
              tree w' !! Os.norm_dir (pair_folder self x) = Some Directory)).
Proof.
  revert w o w'. induction l as [|x l IH]; intros w o w' H.
  - injection H as <- <-. split; [apply quiet_refl|].
    intros tp Htp. injection Htp as <-. split.
    + intros j Hj. apply elem_of_nil in Hj. destruct Hj.
    + intros y Hy. apply elem_of_nil in Hy. destruct Hy.
  - cbn [find_updates] in H. unfold bind at 1 in H.
    destruct (check_pair self cached x w) as [[here|e] w1] eqn:Hc;
      apply check_pair_spec in Hc as (Hq1 & Hok1).
    2:{ injection H as <- <-. split; [exact Hq1|]. intros tp Htp. discriminate. }
    unfold bind at 1 in H.
    destruct (find_updates self cached l w1) as [[rest|e] w2] eqn:Hr;
      apply IH in Hr as (Hq2 & Hok2); injection H as <- <-.
    2:{ split; [eapply quiet_trans; eassumption|]. intros tp Htp. discriminate. }
    split; [eapply quiet_trans; eassumption|].
    intros tp Htp. injection Htp as <-.
    destruct (Hok1 here eq_refl) as [Hhere Hdir1].
    destruct (Hok2 rest eq_refl) as [Hrest Hdir2]. split.
    + intros j Hj. apply elem_of_app in Hj as [Hj|Hj].
      * exists x. split; [apply list_elem_of_here|apply Hhere, Hj].
      * destruct (Hrest j Hj) as (y & Hy & Ht).
        exists y. split; [apply list_elem_of_further, Hy|exact Ht].
    + intros y Hy. apply elem_of_cons in Hy as [->|Hy].
      * destruct Hq2 as (_ & _ & Hkeep). apply Hkeep, Hdir1.
      * apply Hdir2, Hy.
Qed.

Lemma find_current_files_spec self l w o w' :
  find_current_files self l w = (o, w') ->
  quiet nowhere w w'
  /\ (forall current_files, o = Ok current_files ->
        forall p, p ∈ current_files <->
                  exists x, x ∈ l /\ p = pair_target self x).
Proof.
  revert w o w'. induction l as [|x l IH]; intros w o w' H.
  - injection H as <- <-. split; [apply quiet_refl|].
    intros cf Hcf. injection Hcf as <-. intros p. split.
    + intros Hp. apply elem_of_empty in Hp. destruct Hp.
    + intros (y & Hy & _). apply elem_of_nil in Hy. destruct Hy.
  - destruct x as [[[book_id b] f] fd]. cbn [find_current_files] in H.
    unfold bind at 1 in H.
    destruct (_get_target_path self b f w) as [[t|e] w1] eqn:Ht;
      apply get_target_path_spec in Ht as (Hq1 & Hok1).
    2:{ injection H as <- <-. split; [exact Hq1|]. intros cf Hcf. discriminate. }
    unfold bind at 1 in H.
    destruct (find_current_files self l w1) as [[rest|e] w2] eqn:Hr;
      apply IH in Hr as (Hq2 & Hok2); injection H as <- <-.
    2:{ split; [eapply quiet_trans; eassumption|]. intros cf Hcf. discriminate. }
    split; [eapply quiet_trans; eassumption|].
    intros cf Hcf. injection Hcf as <-.
    destruct (Hok1 t eq_refl) as [-> _]. intros p.
    rewrite elem_of_union, elem_of_singleton, (Hok2 rest eq_refl p). split.
    + intros [->|(y & Hy & ->)].
      * exists (book_id, b, f, fd). split; [apply list_elem_of_here|reflexivity].
      * exists y. split; [apply list_elem_of_further, Hy|reflexivity].
    + intros (y & Hy & ->). apply elem_of_cons in Hy as [->|Hy].
      * left. reflexivity.
      * right. exists y. split; [exact Hy|reflexivity].
Qed.

Lemma file_at_is_Some w p :
  is_Some (file_at w p) <-> p ∈ dom (tree w) /\ Os.isdir w p = false.
Proof.
  unfold file_at, Os.isdir. rewrite elem_of_dom.
  destruct (tree w !! p) as [n|].
  - destruct n.
    + split; [|eauto]. intros _. split; [eauto|].
      apply bool_decide_eq_false. discriminate.
    + split; [|eauto]. intros _. split; [eauto|].
      apply bool_decide_eq_false. discriminate.
    + split.
      * intros [x Hx]. discriminate.
      * intros [_ H]. apply bool_decide_eq_false in H. contradiction.
  - split.
    + intros [x Hx]. discriminate.
    + intros [[x Hx] _]. discriminate.
Qed.

Lemma find_existing_files_spec self w :
  exists existing_files,
    find_existing_files self w = (Ok existing_files, w)
    /\ forall p, p ∈ existing_files <-> is_existing_media self w p.
Proof.
  eexists. split; [reflexivity|]. intros p.
  rewrite elem_of_list_to_set, list_elem_of_In, filter_In, <- list_elem_of_In.
  unfold Os.walk_files.
  rewrite list_elem_of_In, filter_In, <- list_elem_of_In, elem_of_elements.
  unfold is_existing_media. rewrite file_at_is_Some.
  rewrite andb_true_iff, negb_true_iff. tauto.
Qed.

(** ** The sweep of empty directories *)

Lemma swept_refl w : swept w w.
Proof.
  split; [apply same_env_refl|]. split; [auto|]. split; [auto|].
  intros d [x Hx] Hnone. rewrite Hx in Hnone. discriminate.
Qed.

Lemma swept_trans w1 w2 w3 : swept w1 w2 -> swept w2 w3 -> swept w1 w3.
Proof.
  intros (E1 & S1 & F1 & C1) (E2 & S2 & F2 & C2).
  split; [eapply same_env_trans; eassumption|]. split; [|split].
  - intros q Hq. rewrite (S2 q Hq). apply S1. rewrite <- (S2 q Hq). exact Hq.
  - intros p. rewrite F2. apply F1.
  - intros d Hd Hnone c Hc Hne.
    destruct (tree w2 !! d) as [n|] eqn:Hd2.
    + apply (C2 d); eauto.
    + destruct (tree w3 !! c) as [m|] eqn:Hc3; [|reflexivity].
      assert (Hc2 : tree w2 !! c = Some m).
      { rewrite <- Hc3. symmetry. apply S2. rewrite Hc3. eauto. }
      rewrite (C1 d Hd Hd2 c Hc Hne) in Hc2. discriminate.
Qed.

Lemma listdir_nil w d c :
  Os.listdir w d = [] ->
  OsPath.dirname c = d -> c <> d -> tree w !! c = None.
Proof.
  unfold Os.listdir. intros Hnil Hc Hne.
  destruct (tree w !! c) as [n|] eqn:Hlook; [|reflexivity]. exfalso.
  assert (Hin : In c (List.filter
    (fun p => String.eqb (OsPath.dirname p) d && negb (String.eqb p d))
    (elements (dom (tree w))))).
  { apply filter_In. split.
    - apply list_elem_of_In, elem_of_elements, elem_of_dom. eauto.
    - apply andb_true_iff. split.
      + apply String.eqb_eq, Hc.
      + apply negb_true_iff, String.eqb_neq, Hne. }
  rewrite Hnil in Hin. destruct Hin.
Qed.

Lemma rmdir_spec d w o w' : Os.rmdir d w = (o, w') -> swept w w'.
Proof.
  unfold Os.rmdir. intros H.
  destruct (tree w !! d) as [n|] eqn:Hd.
  2:{ injection H as <- <-. apply swept_refl. }
  destruct n; try (injection H as <- <-; apply swept_refl).
  destruct (Os.listdir w d) as [|c l] eqn:Hl.
  2:{ injection H as <- <-. apply swept_refl. }
  destruct (bool_decide (d ∈ denied w)); injection H as <- <-.
  { apply swept_refl. }
  split; [repeat split|]. split; [|split].
  - intros q [x Hx]. cbn in *. destruct (decide (q = d)) as [->|Hne].
    + rewrite lookup_delete_eq in Hx. discriminate.
    + rewrite lookup_delete_ne by congruence. reflexivity.
  - intros p. unfold file_at. cbn. destruct (decide (p = d)) as [->|Hne].
    + rewrite lookup_delete_eq, Hd. reflexivity.
    + rewrite lookup_delete_ne by congruence. reflexivity.
  - intros d' [x Hx] Hnone c Hc Hne. cbn in *.
    destruct (decide (d' = d)) as [->|Hne'].
    + destruct (decide (c = d)) as [->|Hcd]; [contradiction|].
      rewrite lookup_delete_ne by congruence.
      eapply listdir_nil; eassumption.
    + rewrite lookup_delete_ne in Hnone by congruence.
      rewrite Hx in Hnone. discriminate.
Qed.

Lemma sweep_loop_spec (l : list string) w o w' :
  for_each l (fun dir_path =>
    entries <- get (fun w => Os.listdir w dir_path) ;;
    match entries with
    | [] =>
        if negb (PyStr.endswith ".git" dir_path) then Os.rmdir dir_path
        else ret tt
    | _ => ret tt
    end) w = (o, w') ->
  swept w w'.
Proof.
  revert w o w'. induction l as [|d l IH]; intros w o w' H.
  - injection H as <- <-. apply swept_refl.
  - cbn [for_each] in H. unfold bind at 1 in H.
    match type of H with (match ?m w with _ => _ end) = _ =>
      destruct (m w) as [o1 w1] eqn:Hstep;
      assert (Hs : swept w w1)
    end.
    { unfold bind, get in Hstep. destruct (Os.listdir w d).
      - destruct (negb (PyStr.endswith ".git" d)).
        + eapply rmdir_spec, Hstep.
        + injection Hstep as <- <-. apply swept_refl.
      - injection Hstep as <- <-. apply swept_refl. }
    destruct o1 as [[]|e].
    + eapply swept_trans; [exact Hs|]. eapply IH, H.
    + injection H as <- <-. exact Hs.
Qed.

Lemma sweep_spec self w o w' : sweep self w = (o, w') -> swept w w'.
Proof.
  unfold sweep, bind at 1, get. apply sweep_loop_spec.
Qed.

(** ** Strings and paths *)

Lemma append_cons c (a b : string) : String c a +:+ b = String c (a +:+ b).
Proof. reflexivity. Qed.

Lemma append_nil_l (b : string) : "" +:+ b = b.
Proof. reflexivity. Qed.

Lemma append_nil_r (s : string) : s +:+ "" = s.
Proof.
  induction s as [|c s IH]; [reflexivity|].
  rewrite append_cons, IH. reflexivity.
Qed.

Lemma append_assoc (a b c : string) : (a +:+ b) +:+ c = a +:+ (b +:+ c).
Proof.
  induction a as [|x a IH]; [reflexivity|].
  rewrite !append_cons, IH. reflexivity.
Qed.

Lemma rev_onto_spec (s acc : string) :
  PyStr.rev_onto s acc = PyStr.rev s +:+ acc.
Proof.
  unfold PyStr.rev. revert acc.
  induction s as [|c s IH]; intros acc; cbn [PyStr.rev_onto]; [reflexivity|].
  rewrite IH, (IH (String c "")), append_assoc. reflexivity.
Qed.

Lemma rev_cons c (s : string) :
  PyStr.rev (String c s) = PyStr.rev s +:+ String c "".
Proof. unfold PyStr.rev at 1. cbn [PyStr.rev_onto]. apply rev_onto_spec. Qed.

Lemma rev_append (a b : string) :
  PyStr.rev (a +:+ b) = PyStr.rev b +:+ PyStr.rev a.
Proof.
  induction a as [|c a IH].
  - rewrite append_nil_l. change (PyStr.rev "") with "".
    rewrite append_nil_r. reflexivity.
  - rewrite append_cons, !rev_cons, IH, append_assoc. reflexivity.
Qed.

Lemma rev_involutive (s : string) : PyStr.rev (PyStr.rev s) = s.
Proof.
  induction s as [|c s IH]; [reflexivity|].
  rewrite rev_cons, rev_append, IH. reflexivity.
Qed.

Lemma length_append (a b : string) :
  String.length (a +:+ b) = (String.length a + String.length b)%nat.
Proof.
  induction a as [|c a IH]; [reflexivity|].
  rewrite append_cons. cbn [String.length]. rewrite IH. reflexivity.
Qed.

Lemma length_rev (s : string) : String.length (PyStr.rev s) = String.length s.
Proof.
  induction s as [|c s IH]; [reflexivity|].
  rewrite rev_cons, length_append, IH. cbn [String.length]. lia.
Qed.

Lemma no_slash_append (a b : string) :
  no_slash (a +:+ b) = no_slash a && no_slash b.
Proof.
  induction a as [|c a IH]; [reflexivity|].
  rewrite append_cons. cbn [no_slash]. rewrite IH, andb_assoc. reflexivity.
Qed.

Lemma no_slash_rev (s : string) : no_slash (PyStr.rev s) = no_slash s.
Proof.
  induction s as [|c s IH]; [reflexivity|].
  rewrite rev_cons, no_slash_append, IH. cbn [no_slash].
  rewrite andb_true_r. apply andb_comm.
Qed.

Lemma no_slash_lstrip (s : string) :
  no_slash s = true -> no_slash (PyStr.lstrip s) = true.
Proof.
  induction s as [|c s IH]; simpl; [reflexivity|]. intros H.
  destruct (PyStr.isspace c); [|exact H].
  apply andb_true_iff in H. apply IH, H.
Qed.

Lemma no_slash_filter (p : ascii -> bool) (s : string) :
  p "/"%char = false -> no_slash (PyStr.filter p s) = true.
Proof.
  intros Hp. induction s as [|c s IH]; simpl; [reflexivity|].
  destruct (p c) eqn:Hc; [|exact IH]. cbn. rewrite IH, andb_true_r.
  apply negb_true_iff. destruct (Ascii.eqb_spec c "/"); [|reflexivity].
  subst c. rewrite Hp in Hc. discriminate.
Qed.

Lemma no_slash_sanitize (s : string) : no_slash (PyStr.sanitize s) = true.
Proof.
  unfold PyStr.sanitize, PyStr.strip, PyStr.rstrip.
  rewrite no_slash_rev. apply no_slash_lstrip. rewrite no_slash_rev.
  apply no_slash_lstrip, no_slash_filter. reflexivity.
Qed.

Lemma no_slash_zeros n : no_slash (PyStr.zeros n) = true.
Proof. induction n as [|n IH]; cbn; [reflexivity|exact IH]. Qed.

Lemma no_slash_uint (d : Decimal.uint) :
  no_slash (NilEmpty.string_of_uint d) = true.
Proof. induction d; cbn; try reflexivity; exact IHd. Qed.

Lemma no_slash_of_N n : no_slash (PyStr.of_N n) = true.
Proof.
  unfold PyStr.of_N, NilZero.string_of_uint.
  destruct (N.to_uint n); try reflexivity; apply no_slash_uint.
Qed.

Lemma no_slash_format x : no_slash (PyFloat.format_02_1f x) = true.
Proof.
  unfold PyFloat.format_02_1f, PyFloat.format_0w_1f.
  rewrite !no_slash_append, no_slash_zeros.
  assert (Hs : no_slash (PyFloat.sign x) = true).
  { destruct x as [[]|[]| |[] ? ?]; reflexivity. }
  assert (Hb : no_slash (PyFloat.body x) = true).
  { destruct x; try reflexivity. cbn [PyFloat.body].
    rewrite !no_slash_append, !no_slash_of_N. reflexivity. }
  rewrite Hs, Hb. reflexivity.
Qed.

Lemma no_slash_target_name b f : no_slash (target_name b f) = true.
Proof.
  unfold target_name. rewrite !no_slash_append.
  assert (Hc : no_slash (clean_title b) = true).
  { unfold clean_title.
    destruct (series_present b); [|apply no_slash_sanitize].
    destruct (index_present b); [|apply no_slash_sanitize].
    rewrite !no_slash_append, no_slash_format, no_slash_sanitize. reflexivity. }
  rewrite Hc. destruct f; reflexivity.
Qed.

Lemma startswith_slash_no_slash (f : string) :
  no_slash f = true -> PyStr.startswith "/" f = false.
Proof.
  destruct f as [|c f]; [reflexivity|]. cbn [no_slash PyStr.startswith].
  intros H. apply andb_true_iff in H as [H _]. apply negb_true_iff in H.
  rewrite andb_true_r. destruct (Ascii.eqb_spec "/" c) as [<-|]; [|reflexivity].
  rewrite Ascii.eqb_refl in H. discriminate.
Qed.

Lemma startswith_append (p q : string) : PyStr.startswith p (p +:+ q) = true.
Proof.
  induction p as [|c p IH]; [reflexivity|].
  rewrite append_cons. cbn [PyStr.startswith].
  rewrite Ascii.eqb_refl, IH. reflexivity.
Qed.

Lemma endswith_append (u x : string) : PyStr.endswith x (u +:+ x) = true.
Proof. unfold PyStr.endswith. rewrite rev_append. apply startswith_append. Qed.

Lemma lower_append (a b : string) :
  PyStr.lower (a +:+ b) = PyStr.lower a +:+ PyStr.lower b.
Proof.
  induction a as [|c a IH]; [reflexivity|].
  rewrite append_cons. cbn [PyStr.lower]. rewrite IH. reflexivity.
Qed.

(** What follows a slash-free front, when the rest is empty or starts with
    a slash. *)
Lemma take_while_front (r x : string) :
  no_slash r = true ->
  x = "" \/ PyStr.startswith "/" x = true ->
  OsPath.take_while_not_slash (r +:+ x) = r
  /\ OsPath.drop_while_not_slash (r +:+ x) = x.
Proof.
  intros Hr Hx. induction r as [|c r IH].
  - rewrite append_nil_l. destruct Hx as [->|Hx]; [split; reflexivity|].
    destruct x as [|c x]; [discriminate|]. cbn [PyStr.startswith] in Hx.
    apply andb_true_iff in Hx as [Hc _]. apply Ascii.eqb_eq in Hc. subst c.
    split; reflexivity.
  - cbn [no_slash] in Hr. apply andb_true_iff in Hr as [Hc Hr].
    apply negb_true_iff in Hc. destruct (IH Hr) as [IH1 IH2].
    rewrite append_cons.
    cbn [OsPath.take_while_not_slash OsPath.drop_while_not_slash].
    rewrite Hc, IH1, IH2. split; reflexivity.
Qed.

Lemma basename_append (pre f : string) :
  no_slash f = true ->
  pre = "" \/ PyStr.startswith "/" (PyStr.rev pre) = true ->
  OsPath.basename (pre +:+ f) = f.
Proof.
  intros Hf Hpre. unfold OsPath.basename. rewrite rev_append.
  destruct (take_while_front (PyStr.rev f) (PyStr.rev pre)) as [-> _].
  - rewrite no_slash_rev. exact Hf.
  - destruct Hpre as [->|H]; [left; reflexivity|right; exact H].
  - apply rev_involutive.
Qed.

Lemma dirname_append (pre f : string) :
  no_slash f = true ->
  pre = "" \/ PyStr.startswith "/" (PyStr.rev pre) = true ->
  OsPath.dirname (pre +:+ f) = Os.norm_dir pre.
Proof.
  intros Hf Hpre. unfold OsPath.dirname, Os.norm_dir. rewrite rev_append.
  destruct (take_while_front (PyStr.rev f) (PyStr.rev pre)) as [_ ->].
  - rewrite no_slash_rev. exact Hf.
  - destruct Hpre as [->|H]; [left; reflexivity|right; exact H].
  - rewrite !rev_involutive. reflexivity.
Qed.

Lemma length_drop_slashes (s : string) :
  (String.length (OsPath.drop_slashes s) <= String.length s)%nat.
Proof.
  induction s as [|c s IH]; cbn [OsPath.drop_slashes String.length]; [lia|].
  destruct (Ascii.eqb c "/"); cbn [String.length]; lia.
Qed.

Lemma length_norm_dir (d : string) :
  (String.length (Os.norm_dir d) <= String.length d)%nat.
Proof.
  unfold Os.norm_dir. destruct (String.eqb _ ""); [lia|].
  rewrite length_rev. etransitivity; [apply length_drop_slashes|].
  rewrite length_rev. lia.
Qed.

(** [os.path.join(d, f)] for a file name [f] without a slash. *)
Lemma join_no_slash (d f : string) :
  no_slash f = true ->
  exists pre,
    OsPath.join d f = pre +:+ f
    /\ (pre = "" \/ PyStr.startswith "/" (PyStr.rev pre) = true)
    /\ Os.norm_dir pre = Os.norm_dir d
    /\ (String.length d <= String.length pre)%nat.
Proof.
  intros Hf. unfold OsPath.join.
  rewrite (startswith_slash_no_slash f Hf).
  destruct (String.eqb_spec d "") as [->|Hne].
  { exists "". split; [reflexivity|]. split; [left; reflexivity|].
    split; [reflexivity|]. cbn [String.length]. lia. }
  cbn [orb]. destruct (PyStr.endswith "/" d) eqn:He.
  { exists d. split; [reflexivity|]. split; [right; exact He|].
    split; [reflexivity|lia]. }
  exists (d +:+ "/"). rewrite append_assoc. split; [reflexivity|].
  split; [right; rewrite rev_append; reflexivity|].
  split; [|rewrite length_append; lia].
  unfold PyStr.endswith in He. change (PyStr.rev "/") with "/" in He.
  unfold Os.norm_dir. rewrite rev_append.
  change (PyStr.rev "/") with "/". rewrite append_cons, append_nil_l.
  cbn [OsPath.drop_slashes]. change (Ascii.eqb "/" "/") with true. cbn iota.
  destruct (PyStr.rev d) as [|c r] eqn:Hr.
  { exfalso. apply Hne. rewrite <- (rev_involutive d), Hr. reflexivity. }
  cbn [PyStr.startswith] in He. rewrite andb_true_r in He.
  cbn [OsPath.drop_slashes]. rewrite Ascii.eqb_sym, He.
  rewrite <- Hr, rev_involutive.
  destruct (String.eqb_spec d ""); [contradiction|reflexivity].
Qed.

Lemma target_path_join self b f :
  target_path self b f = OsPath.join (target_folder self b) (target_name b f).
Proof. reflexivity. Qed.

Lemma basename_target self b f :
  OsPath.basename (target_path self b f) = target_name b f.
Proof.
  rewrite target_path_join.
  destruct (join_no_slash (target_folder self b) _ (no_slash_target_name b f))
    as (pre & -> & Hpre & _).
  apply basename_append; [apply no_slash_target_name|exact Hpre].
Qed.

Lemma dirname_target self b f :
  OsPath.dirname (target_path self b f) = Os.norm_dir (target_folder self b).
Proof.
  rewrite target_path_join.
  destruct (join_no_slash (target_folder self b) _ (no_slash_target_name b f))
    as (pre & -> & Hpre & <- & _).
  apply dirname_append; [apply no_slash_target_name|exact Hpre].
Qed.


Lemma is_media_target self b f : is_media (target_path self b f) = true.
Proof.
  unfold is_media. rewrite basename_target. unfold target_name.
  rewrite lower_append. unfold PyStr.endswith_any, media_suffixes.
  cbn [existsb]. destruct f.
  - change (PyStr.lower ("." +:+ format_str Cbr)) with ".cbr".
    rewrite endswith_append. reflexivity.
  - change (PyStr.lower ("." +:+ format_str Cbz)) with ".cbz".
    rewrite endswith_append. rewrite orb_true_r. reflexivity.
Qed.

Lemma is_media_join_const (d f : string) :
  no_slash f = true -> is_media (OsPath.join d f) = is_media f.
Proof.
  intros Hf. destruct (join_no_slash d f Hf) as (pre & -> & Hpre & _).
  unfold is_media. rewrite (basename_append pre f Hf Hpre).
  rewrite <- (append_nil_l f) at 2.
  rewrite (basename_append "" f Hf); [reflexivity|left; reflexivity].
Qed.

(** ** The stages of a pass *)

Lemma load_cache_quiet self w o w' :
  _load_metadata_cache self w = (o, w') -> quiet nowhere w w'.
Proof.
  unfold _load_metadata_cache, bind, get, try_except, json_load.
  destruct (Os.path_exists w (metadata_cache_file self)).
  2:{ intros H. injection H as <- <-. apply quiet_refl. }
  destruct (Os.isdir w _).
  { cbn. intros H. injection H as <- <-. apply quiet_refl. }
  destruct (negb (Os.isfile w _)).
  { cbn. intros H. injection H as <- <-. apply quiet_refl. }
  destruct (cache_data w); cbn; intros H; injection H as <- <-;
    first [apply quiet_refl | apply quiet_add_log].
Qed.

Lemma reconcile_spec self current cached w o w' :
  reconcile self current cached w = (o, w') ->
  quiet nowhere w w'
  /\ (forall to_process to_remove, o = Ok (to_process, to_remove) ->
        (forall j, j ∈ to_process ->
           exists x, x ∈ pairs current /\ target_of j = pair_target self x)
        /\ (forall p, p ∈ to_remove <->
              is_existing_media self w' p
              /\ ~ exists x, x ∈ pairs current /\ p = pair_target self x)
        /\ (forall x, x ∈ pairs current ->
              tree w' !! Os.norm_dir (pair_folder self x) = Some Directory)).
Proof.
  unfold reconcile. intros H. unfold bind at 1 in H.
  destruct (find_updates self cached (pairs current) w) as [[tp|e] w1] eqn:H1;
    apply find_updates_spec in H1 as (Hq1 & Hok1).
  2:{ injection H as <- <-. split; [exact Hq1|]. intros ? ? E. discriminate. }
  unfold bind at 1 in H.
  destruct (find_current_files self (pairs current) w1) as [[cf|e] w2] eqn:H2;
    apply find_current_files_spec in H2 as (Hq2 & Hok2).
  2:{ injection H as <- <-. split; [eapply quiet_trans; eassumption|].
      intros ? ? E. discriminate. }
  destruct (find_existing_files_spec self w2) as (ex & Hex & Hmem).
  unfold bind at 1 in H. rewrite Hex in H. unfold ret in H.
  injection H as <- <-.
  split; [eapply quiet_trans; eassumption|].
  intros tp' tr' E. injection E as <- <-.
  destruct (Hok1 tp eq_refl) as [Htargets Hdirs]. split; [exact Htargets|].
  split.
  - intros p. rewrite elem_of_difference, Hmem, (Hok2 cf eq_refl p). tauto.
  - intros x Hx. destruct Hq2 as (_ & _ & Hkeep). apply Hkeep, Hdirs, Hx.
Qed.

Lemma plan_spec self tag w o w' :
  plan self tag w = (o, w') ->
  quiet nowhere w w'
  /\ (forall current to_process to_remove,
        o = Ok (current, to_process, to_remove) ->
        db w tag = Some current
        /\ (forall j, j ∈ to_process ->
              exists x, x ∈ pairs current /\ target_of j = pair_target self x)
        /\ (forall p, p ∈ to_remove <->
              is_existing_media self w' p
              /\ ~ exists x, x ∈ pairs current /\ p = pair_target self x)
        /\ (forall x, x ∈ pairs current ->
              tree w' !! Os.norm_dir (pair_folder self x) = Some Directory)).
Proof.
  unfold plan. intros H.
  unfold bind at 1, logging, modify in H.
  set (w0 := add_log (InfoStarting tag) w) in H.
  assert (Hq0 : quiet nowhere w w0) by apply quiet_add_log.
  unfold bind at 1, _get_metadata_from_db in H.
  change (db w0 tag) with (db w tag) in H.
  destruct (db w tag) as [current|] eqn:Hdb.
  2:{ injection H as <- <-. split; [exact Hq0|]. intros ? ? ? E. discriminate. }
  unfold bind at 1 in H.
  destruct (_load_metadata_cache self w0) as [[cached|e] w1] eqn:Hload;
    apply load_cache_quiet in Hload.
  2:{ injection H as <- <-. split; [exact (quiet_trans _ _ _ _ Hq0 Hload)|].
      intros ? ? ? E. discriminate. }
  unfold bind at 1 in H.
  destruct (reconcile self current cached w1) as [[[tp tr]|e] w2] eqn:Hrec;
    apply reconcile_spec in Hrec as (Hq2 & Hok); injection H as <- <-.
  2:{ split; [exact (quiet_trans _ _ _ _ (quiet_trans _ _ _ _ Hq0 Hload) Hq2)|].
      intros ? ? ? E. discriminate. }
  split; [exact (quiet_trans _ _ _ _ (quiet_trans _ _ _ _ Hq0 Hload) Hq2)|].
  intros c tp' tr' E. injection E as <- <- <-.
  split; [reflexivity|]. apply (Hok tp tr eq_refl).
Qed.

Lemma execute_spec method (to_process : list pending) (to_remove : gset string)
  w o w' :
  execute method to_process to_remove w = (o, w') ->
  quiet (fun p => p ∈ target_of <$> to_process \/ p ∈ to_remove) w w'
  /\ (o = Ok tt -> forall p, p ∈ to_remove -> tree w' !! p = None).
Proof.
  unfold execute. intros H. unfold bind at 1 in H.
  match type of H with (match ?m w with _ => _ end) = _ =>
    assert (H1 : exists w1, m w = (Ok tt, w1)
              /\ quiet (fun p => p ∈ target_of <$> to_process) w w1)
  end.
  { destruct to_process as [|j l] eqn:Hl.
    - exists w. split; [reflexivity|apply quiet_refl].
    - rewrite <- Hl.
      destruct (process_all_quiet method to_process w)
        as (futures & w1 & Hrun & Hall & Hq).
      exists w1. split; [|exact Hq].
      erewrite bind_ok by exact Hrun. apply results_all_ok, Hall. }
  destruct H1 as (w1 & Hrun1 & Hq1). rewrite Hrun1 in H. clear Hrun1.
  assert (Hsub1 : quiet (fun p => p ∈ target_of <$> to_process \/ p ∈ to_remove)
                    w w1).
  { eapply quiet_weaken; [|exact Hq1]. intros p Hp. left. exact Hp. }
  destruct (elements to_remove) as [|q l] eqn:Hel.
  - injection H as <- <-. split; [exact Hsub1|].
    intros _ p Hp. apply elem_of_elements in Hp. rewrite Hel in Hp.
    apply elem_of_nil in Hp. destruct Hp.
  - rewrite <- Hel in *.
    destruct (remove_all_spec (elements to_remove) w1)
      as (futures & w2 & Hrun & Hq2 & _ & Hgone).
    erewrite bind_ok in H by exact Hrun.
    apply results_inv in H as [-> Hall]. split.
    + eapply quiet_trans; [exact Hsub1|].
      eapply quiet_weaken; [|exact Hq2].
      intros p Hp. right. apply elem_of_elements, Hp.
    + intros Ho p Hp. apply Hgone; [apply Hall, Ho|].
      apply elem_of_elements, Hp.
Qed.

Lemma create_keeps p w o w' q :
  Os.create p w = (o, w') ->
  is_Some (file_at w q) -> is_Some (file_at w' q).
Proof.
  unfold Os.create. intros H Hq.
  destruct (Os.isdir w p); [injection H as <- <-; exact Hq|].
  destruct (negb (Os.parent_ok w p)); [injection H as <- <-; exact Hq|].
  destruct (bool_decide (p ∈ denied w)); injection H as <- <-; [exact Hq|].
  unfold file_at in *. cbn [tree set_tree].
  destruct (decide (q = p)) as [->|Hne].
  - rewrite lookup_insert_eq. eauto.
  - rewrite lookup_insert_ne by congruence. exact Hq.
Qed.

Lemma save_spec self cache w o w' :
  _save_metadata_cache self cache w = (o, w') ->
  denied w' = denied w /\ db w' = db w
  /\ (forall p, p <> metadata_cache_file self -> file_at w' p = file_at w p)
  /\ (forall p, is_Some (file_at w p) -> is_Some (file_at w' p))
  /\ (forall d, tree w !! d = Some Directory -> tree w' !! d = Some Directory)
  /\ (o = Ok tt ->
      cache_data w' = Document cache
      /\ tree w' !! metadata_cache_file self = Some Regular)
  /\ (o <> Ok tt -> cache_data w' = cache_data w)
  /\ (o = Ok tt -> OsPath.dirname (metadata_cache_file self) <> "").
Proof.
  unfold _save_metadata_cache. intros H. unfold bind at 1 in H.
  destruct (Os.makedirs _ w) as [[[]|e] w1] eqn:Hm;
    apply makedirs_spec in Hm as (((Hden1 & Hdb1 & Hc1) & Hf1 & Hd1) & Hmk & _).
  2:{ injection H as <- <-.
      split; [exact Hden1|]. split; [exact Hdb1|].
      split; [intros p _; apply Hf1; intros []|].
      split; [intros p Hp; rewrite Hf1; [exact Hp|intros []]|].
      split; [exact Hd1|].
      split; [intros E; discriminate|].
      split; [intros _; exact Hc1|intros E; discriminate]. }
  unfold bind at 1 in H.
  destruct (Os.create (metadata_cache_file self) w1) as [[[]|e] w2] eqn:Hc.
  - pose proof (fun q => create_keeps _ _ _ _ q Hc) as Hkeep.
    apply create_spec in Hc as (((Hden2 & Hdb2 & Hc2) & Hf2 & Hd2) & Hreg).
    unfold modify in H. injection H as <- <-. cbn [denied db cache_data set_cache_data].
    split; [congruence|]. split; [congruence|].
    split; [|split; [|split; [|split; [|split]]]].
    + intros p Hp. unfold file_at. cbn [tree set_cache_data].
      fold (file_at w2 p). rewrite Hf2 by exact Hp. apply Hf1. intros [].
    + intros p Hp. unfold file_at. cbn [tree set_cache_data].
      fold (file_at w2 p). apply Hkeep. rewrite Hf1; [exact Hp|intros []].
    + intros d Hd. cbn [tree set_cache_data]. auto.
    + intros _. split; [reflexivity|]. cbn [tree set_cache_data]. auto.
    + intros E. contradiction.
    + intros _. apply Hmk. reflexivity.
  - pose proof (fun q => create_keeps _ _ _ _ q Hc) as Hkeep.
    apply create_spec in Hc as (((Hden2 & Hdb2 & Hc2) & Hf2 & Hd2) & Hreg).
    injection H as <- <-.
    split; [congruence|]. split; [congruence|].
    split; [|split; [|split; [|split; [|split]]]].
    + intros p Hp. rewrite Hf2 by exact Hp. apply Hf1. intros [].
    + intros p Hp. apply Hkeep. rewrite Hf1; [exact Hp|intros []].
    + auto.
    + intros E; discriminate.
    + intros _. congruence.
    + intros E; discriminate.
Qed.

(** ** The snapshot that is saved *)








(** ** A pass, stage by stage *)

Lemma sync_tag_stages self method tag w o w' :
  sync_tag self method tag w = (o, w') ->
  exists o1 w1,
    plan self tag w = (o1, w1)
    /\ match o1 with
       | Raise e => o = Raise e /\ w' = w1
       | Ok (current, to_process, to_remove) =>
           exists o2 w2,
             execute method to_process to_remove w1 = (o2, w2)
             /\ match o2 with
                | Raise e => o = Raise e /\ w' = w2
                | Ok _ =>
                    exists o3 w3,
                      _save_metadata_cache self (snapshot current) w2 = (o3, w3)
                      /\ match o3 with
                         | Raise e => o = Raise e /\ w' = w3
                         | Ok _ =>
                             exists o4 w4,
                               sweep self w3 = (o4, w4)
                               /\ match o4 with
                                  | Raise e => o = Raise e /\ w' = w4
                                  | Ok _ =>
                                      o = Ok tt
                                      /\ w' = add_log (InfoSyncComplete tag) w4
                                  end
                         end
                end
       end.
Proof.
  unfold sync_tag. intros H. unfold bind at 1 in H.
  destruct (plan self tag w) as [[[[current tp] tr]|e] w1].
  2:{ injection H as <- <-. exists (Raise e), w1. auto. }
  exists (Ok (current, tp, tr)), w1. split; [reflexivity|].
  unfold bind at 1 in H.
  destruct (execute method tp tr w1) as [[[]|e] w2].
  2:{ injection H as <- <-. exists (Raise e), w2. auto. }
  exists (Ok tt), w2. split; [reflexivity|].
  unfold bind at 1 in H.
  destruct (_save_metadata_cache self (snapshot current) w2) as [[[]|e] w3].
  2:{ injection H as <- <-. exists (Raise e), w3. auto. }
  exists (Ok tt), w3. split; [reflexivity|].
  unfold bind at 1 in H.
  destruct (sweep self w3) as [[[]|e] w4].
  2:{ injection H as <- <-. exists (Raise e), w4. auto. }
  exists (Ok tt), w4. split; [reflexivity|].
  unfold logging, modify in H. injection H as <- <-. auto.
Qed.



(** ** What a pass never deletes *)

Lemma kept_refl w : kept w w.
Proof. split; auto. Qed.

Lemma kept_trans w1 w2 w3 : kept w1 w2 -> kept w2 w3 -> kept w1 w3.
Proof. intros [F1 D1] [F2 D2]. split; auto. Qed.

Lemma quiet_kept (S : string -> Prop) w w' :
  (forall p, S p -> is_media p = true) -> quiet S w w' -> kept w w'.
Proof.
  intros HS (_ & F & D). split; [|exact D].
  intros p Hp Hsome. rewrite F; [exact Hsome|].
  intros Hin. apply HS in Hin. congruence.
Qed.

Lemma pair_target_media self x : is_media (pair_target self x) = true.
Proof. destruct x as [[[k b] f] fd]. apply is_media_target. Qed.

Lemma sweep_loop_git (l : list string) w o w' d :
  for_each l (fun dir_path =>
    entries <- get (fun w => Os.listdir w dir_path) ;;
    match entries with
    | [] =>
        if negb (PyStr.endswith ".git" dir_path) then Os.rmdir dir_path
        else ret tt
    | _ => ret tt
    end) w = (o, w') ->
  PyStr.endswith ".git" d = true ->
  tree w' !! d = tree w !! d.
Proof.
  intros H Hd. revert w o w' H. induction l as [|x l IH]; intros w o w' H.
  - injection H as <- <-. reflexivity.
  - cbn [for_each] in H. unfold bind at 1 in H.
    match type of H with (match ?m w with _ => _ end) = _ =>
      destruct (m w) as [o1 w1] eqn:Hstep;
      assert (Hs : tree w1 !! d = tree w !! d)
    end.
    { unfold bind, get in Hstep. destruct (Os.listdir w x) as [|c cs] eqn:Hl.
      - destruct (PyStr.endswith ".git" x) eqn:Hx; cbn [negb] in Hstep.
        + injection Hstep as <- <-. reflexivity.
        + unfold Os.rmdir in Hstep. rewrite Hl in Hstep.
          destruct (tree w !! x) as [[]|];
            try (injection Hstep as <- <-; reflexivity).
          destruct (bool_decide (x ∈ denied w)); injection Hstep as <- <-;
            [reflexivity|].
          cbn [tree set_tree]. apply lookup_delete_ne. intros ->.
          rewrite Hd in Hx. discriminate.
      - injection Hstep as <- <-. reflexivity. }
    destruct o1 as [[]|e].
    + rewrite (IH _ _ _ H). exact Hs.
    + injection H as <- <-. exact Hs.
Qed.

Lemma sweep_git self w o w' d :
  sweep self w = (o, w') ->
  PyStr.endswith ".git" d = true -> tree w' !! d = tree w !! d.
Proof. unfold sweep, bind at 1, get. apply sweep_loop_git. Qed.

(** What holds from the start of a pass up to the sweep, wherever the pass
    stops, and what the sweep adds. *)
Lemma pass_frame self method tag w o w' :
  sync_tag self method tag w = (o, w') ->
  exists w3, kept w w3 /\ (w' = w3 \/ exists o4 w4,
    sweep self w3 = (o4, w4)
    /\ (w' = w4 \/ w' = add_log (InfoSyncComplete tag) w4)).
Proof.
  intros H. apply sync_tag_stages in H as (o1 & w1 & Hplan & H).
  apply plan_spec in Hplan as (Hq1 & Hok).
  assert (K1 : kept w w1).
  { eapply quiet_kept; [|exact Hq1]. intros p []. }
  destruct o1 as [[[cur tp] tr]|e].
  2:{ destruct H as [_ ->]. exists w1. split; [exact K1|left; reflexivity]. }
  destruct (Hok cur tp tr eq_refl) as (_ & Htp & Htr & _).
  destruct H as (o2 & w2 & Hexec & H).
  apply execute_spec in Hexec as (Hq2 & _).
  assert (K2 : kept w w2).
  { eapply kept_trans; [exact K1|]. eapply quiet_kept; [|exact Hq2].
    intros p [Hp|Hp].
    - apply list_elem_of_fmap in Hp as (j & -> & Hj).
      destruct (Htp j Hj) as (x & _ & ->). apply pair_target_media.
    - apply Htr in Hp as [(_ & _ & Hm) _]. exact Hm. }
  destruct o2 as [[]|e].
  2:{ destruct H as [_ ->]. exists w2. split; [exact K2|left; reflexivity]. }
  destruct H as (o3 & w3 & Hsave & H).
  apply save_spec in Hsave as (_ & _ & _ & Hkeep & Hdirs & _).
  assert (K3 : kept w w3).
  { eapply kept_trans; [exact K2|]. split; [|exact Hdirs].
    intros p _. apply Hkeep. }
  exists w3. split; [exact K3|].
  destruct o3 as [[]|e]; [|destruct H as [_ ->]; left; reflexivity].
  destruct H as (o4 & w4 & Hsweep & H). right. exists o4, w4.
  split; [exact Hsweep|].
  destruct o4 as [[]|e]; destruct H as [_ ->]; [right|left]; reflexivity.
Qed.

(** C10: whatever the outcome of a pass, every file whose name does not
    end (in any letter case) in [.cbr], [.cbz], [.pdf] or [.zip] is still
    there afterwards, in particular [.metadata_cache.json] and
    [sync_log.txt] under the output root; and a directory that is gone
    afterwards has a path that does not end in [.git] and lies empty: nothing
    that is left has it as its parent. *)
Theorem C10_cache_and_log_survive (library output : string) method tag w o w' :
  let self := new_manager library output None in
  sync_tag self method tag w = (o, w') ->
  (forall p, is_media p = false ->
     is_Some (file_at w p) -> is_Some (file_at w' p))
  /\ (is_Some (file_at w (OsPath.join output ".metadata_cache.json")) ->
      is_Some (file_at w' (OsPath.join output ".metadata_cache.json")))
  /\ (is_Some (file_at w (OsPath.join output "sync_log.txt")) ->
      is_Some (file_at w' (OsPath.join output "sync_log.txt")))
  /\ metadata_cache_file self = OsPath.join output ".metadata_cache.json"
  /\ log_path self = OsPath.join output "sync_log.txt"
  /\ (forall d, tree w !! d = Some Directory -> tree w' !! d = None ->
        PyStr.endswith ".git" d = false
        /\ forall c, OsPath.dirname c = d -> c <> d -> tree w' !! c = None).
Proof.
  intros self H.
  destruct (pass_frame _ _ _ _ _ _ H) as (w3 & [Kf Kd] & Hend).
  assert (Hfiles : forall p, is_media p = false ->
            is_Some (file_at w p) -> is_Some (file_at w' p)).
  { intros p Hp Hsome. pose proof (Kf p Hp Hsome) as H3.
    destruct Hend as [->|(o4 & w4 & Hsweep & Hend)]; [exact H3|].
    apply sweep_spec in Hsweep as (_ & _ & Hf & _).
    destruct Hend as [-> | ->].
    - rewrite Hf. exact H3.
    - unfold file_at. cbn [tree add_log]. fold (file_at w4 p).
      rewrite Hf. exact H3. }
  split; [exact Hfiles|].
  split; [apply Hfiles; rewrite is_media_join_const; reflexivity|].
  split; [apply Hfiles; rewrite is_media_join_const; reflexivity|].
  split; [reflexivity|]. split; [reflexivity|].
  intros d Hd Hgone. pose proof (Kd d Hd) as Hd3.
  destruct Hend as [->|(o4 & w4 & Hsweep & Hend)]; [congruence|].
  assert (Hgone4 : tree w4 !! d = None).
  { destruct Hend as [-> | ->]; exact Hgone. }
  assert (Htree : tree w' = tree w4).
  { destruct Hend as [-> | ->]; reflexivity. }
  rewrite Htree. split.
  - destruct (PyStr.endswith ".git" d) eqn:Hg; [|reflexivity].
    rewrite (sweep_git _ _ _ _ d Hsweep Hg) in Hgone4. congruence.
  - apply sweep_spec in Hsweep as (_ & _ & _ & Hchild).
    apply (Hchild d); [rewrite Hd3; eauto|exact Hgone4].
Qed.

Lemma C10_cache_and_log_survive_witness :
  is_Some (file_at (sync_tag sample_manager MethodCopy "Comics" sample_world).2
             "/yac/sync_log.txt").
Proof.
  destruct (sync_tag sample_manager MethodCopy "Comics" sample_world)
    as [o w'] eqn:H.
  destruct (C10_cache_and_log_survive "/library" "/yac" MethodCopy "Comics"
              sample_world o w' H) as (_ & _ & Hlog & _).
  apply Hlog. vm_compute. eauto.
Defined.

(** ** No orphans *)






(** ** A second pass *)


Lemma path_exists_some w p :
  Os.path_exists w p = true -> is_Some (tree w !! p).
Proof.
  unfold Os.path_exists, Os.isfile, Os.isdir. cbn [Os.isfile_fuel].
  destruct (tree w !! p) as [n|]; [eauto|].
  rewrite bool_decide_eq_false_2 by discriminate. discriminate.
Qed.








(** * Further properties *)

(** ** Grouping the rows of the query *)

Lemma add_row_same (result : catalog) (r : row) :
  add_row result r !! row_id r =
  Some (let b := default (book_of_row r) (result !! row_id r) in
        set_formats (<[row_format r := format_of_row r]> (formats b)) b).
Proof.
  unfold add_row. destruct (result !! row_id r) as [b|] eqn:Hk.
  - rewrite Hk. rewrite lookup_insert_eq. reflexivity.
  - rewrite lookup_insert_eq, lookup_insert_eq. reflexivity.
Qed.

Lemma add_row_other (result : catalog) (r : row) (k : Z) :
  k <> row_id r -> add_row result r !! k = result !! k.
Proof.
  intros Hne. unfold add_row. destruct (result !! row_id r) as [b|] eqn:Hk.
  - rewrite Hk. rewrite lookup_insert_ne by congruence. reflexivity.
  - rewrite lookup_insert_eq. rewrite !lookup_insert_ne by congruence.
    reflexivity.
Qed.

Lemma collect_rows_snoc (rows : list row) (r : row) :
  collect_rows (rows ++ [r]) = add_row (collect_rows rows) r.
Proof. unfold collect_rows. rewrite foldl_app. reflexivity. Qed.

Lemma collect_rows_spec (rows : list row) (k : Z) :
  (is_Some (collect_rows rows !! k) <-> exists r, r ∈ rows /\ row_id r = k)
  /\ (forall b, collect_rows rows !! k = Some b ->
        formats b <> ∅
        /\ forall f fd, formats b !! f = Some fd ->
             exists r, r ∈ rows /\ row_id r = k /\ row_format r = f
                       /\ fd = format_of_row r).
Proof.
  induction rows as [|r rows IH] using rev_ind.
  - split.
    + split.
      * intros [b Hb]. unfold collect_rows in Hb. cbn in Hb.
        rewrite lookup_empty in Hb. discriminate.
      * intros (r & Hr & _). apply elem_of_nil in Hr. destruct Hr.
    + intros b Hb. unfold collect_rows in Hb. cbn in Hb.
      rewrite lookup_empty in Hb. discriminate.
  - destruct IH as [IHdom IHfmt]. rewrite collect_rows_snoc.
    destruct (decide (k = row_id r)) as [->|Hne].
    + rewrite add_row_same. split.
      * split; [|eauto]. intros _. exists r. split; [|reflexivity].
        apply elem_of_app. right. apply list_elem_of_here.
      * intros b Hb. injection Hb as <-. cbn [formats set_formats]. split.
        { intros E. apply (f_equal (fun m => m !! row_format r)) in E.
          rewrite lookup_insert_eq, lookup_empty in E. discriminate. }
        intros f fd Hf. destruct (decide (f = row_format r)) as [->|Hf'].
        { rewrite lookup_insert_eq in Hf. injection Hf as <-.
          exists r. split; [|auto].
          apply elem_of_app. right. apply list_elem_of_here. }
        rewrite lookup_insert_ne in Hf by congruence.
        destruct (collect_rows rows !! row_id r) as [b0|] eqn:Hb0;
          cbn [default] in Hf.
        { destruct (IHfmt b0 eq_refl) as [_ Hsrc].
          destruct (Hsrc f fd Hf) as (r0 & Hr0 & Hid & Hfm & Hfd).
          exists r0. split; [|auto]. apply elem_of_app. left. exact Hr0. }
        cbn [formats book_of_row] in Hf. rewrite lookup_empty in Hf.
        discriminate.
    + rewrite add_row_other by exact Hne. split.
      * rewrite IHdom. split.
        { intros (r0 & Hr0 & Hid). exists r0. split; [|exact Hid].
          apply elem_of_app. left. exact Hr0. }
        intros (r0 & Hr0 & Hid). exists r0. split; [|exact Hid].
        apply elem_of_app in Hr0 as [Hr0|Hr0]; [exact Hr0|].
        apply list_elem_of_singleton in Hr0. subst r0. congruence.
      * intros b Hb. destruct (IHfmt b Hb) as [Hne' Hsrc]. split; [exact Hne'|].
        intros f fd Hf. destruct (Hsrc f fd Hf) as (r0 & Hr0 & Hrest).
        exists r0. split; [|exact Hrest]. apply elem_of_app. left. exact Hr0.
Qed.

Lemma add_row_same_item (result : catalog) (r : row) (k : Z) (b : book_data) :
  result !! k = Some b ->
  exists b', add_row result r !! k = Some b' /\ same_item b b'
             /\ forall f, (k, f) <> (row_id r, row_format r) ->
                          formats b' !! f = formats b !! f.
Proof.
  intros Hb. destruct (decide (k = row_id r)) as [->|Hne].
  - rewrite add_row_same, Hb. cbn [default]. eexists. split; [reflexivity|].
    split; [repeat split|]. intros f Hf. cbn [formats set_formats].
    apply lookup_insert_ne. congruence.
  - rewrite add_row_other by exact Hne. exists b. split; [exact Hb|].
    split; [repeat split|]. reflexivity.
Qed.

Lemma same_item_trans b1 b2 b3 :
  same_item b1 b2 -> same_item b2 b3 -> same_item b1 b3.
Proof.
  intros (A1 & A2 & A3 & A4 & A5) (B1 & B2 & B3 & B4 & B5).
  repeat split; congruence.
Qed.

Lemma foldl_add_row_keeps (rest : list row) (result : catalog) k b :
  result !! k = Some b ->
  exists b', foldl add_row result rest !! k = Some b' /\ same_item b b'
             /\ forall f, (forall r, r ∈ rest ->
                             (k, f) <> (row_id r, row_format r)) ->
                          formats b' !! f = formats b !! f.
Proof.
  revert result b. induction rest as [|r rest IH]; intros result b Hb.
  - exists b. split; [exact Hb|]. split; [repeat split|]. reflexivity.
  - cbn [foldl].
    destruct (add_row_same_item result r k b Hb) as (b1 & Hb1 & Hs1 & Hf1).
    destruct (IH _ _ Hb1) as (b2 & Hb2 & Hs2 & Hf2).
    exists b2. split; [exact Hb2|]. split; [eapply same_item_trans; eassumption|].
    intros f Hf. rewrite Hf2, Hf1.
    + reflexivity.
    + apply Hf, list_elem_of_here.
    + intros r0 Hr0. apply Hf, list_elem_of_further, Hr0.
Qed.

(** X1: the result of [_get_metadata_from_db] has an entry for a book id
    exactly when some row carries that id, and every entry has at least
    one format; each format entry is built from a row of that book and that
    format. So no book without a format comes out of the reader. *)
Theorem X1_collect_rows_entries (rows : list row) (k : Z) :
  (is_Some (collect_rows rows !! k) <-> exists r, r ∈ rows /\ row_id r = k)
  /\ (forall b, collect_rows rows !! k = Some b ->
        formats b <> ∅
        /\ forall f fd, formats b !! f = Some fd ->
             exists r, r ∈ rows /\ row_id r = k /\ row_format r = f
                       /\ fd = format_of_row r).
Proof. apply collect_rows_spec. Qed.

Lemma collect_rows_at_row (before after : list row) (r : row) :
  exists b1 b,
    add_row (collect_rows before) r !! row_id r = Some b1
    /\ formats b1 !! row_format r = Some (format_of_row r)
    /\ ((forall r0, r0 ∈ before -> row_id r0 <> row_id r) ->
        same_item (book_of_row r) b1)
    /\ collect_rows (before ++ r :: after) !! row_id r = Some b
    /\ same_item b1 b
    /\ ((forall r0, r0 ∈ after ->
           (row_id r, row_format r) <> (row_id r0, row_format r0)) ->
        formats b !! row_format r = formats b1 !! row_format r).
Proof.
  pose proof (add_row_same (collect_rows before) r) as H1.
  cbv zeta in H1.
  destruct (foldl_add_row_keeps after _ _ _ H1) as (b & Hb & Hsame & Hfmt).
  eexists. exists b. split; [exact H1|]. split; [|split; [|split; [|split]]].
  - cbn [formats set_formats]. apply lookup_insert_eq.
  - intros Hfirst.
    destruct (collect_rows before !! row_id r) as [b0|] eqn:Hb0.
    + exfalso. destruct (collect_rows_spec before (row_id r)) as [Hdom _].
      destruct (proj1 Hdom) as (r0 & Hr0 & Hid); [rewrite Hb0; eauto|].
      exact (Hfirst r0 Hr0 Hid).
    + cbn [default]. repeat split.
  - unfold collect_rows. rewrite foldl_app. cbn [foldl]. exact Hb.
  - exact Hsame.
  - intros Hlast. apply Hfmt. exact Hlast.
Qed.

(** X2: the title, path, series, series index and metadata of a book are
    those of the first row with its id: later rows of the same book do not
    change them. *)
Theorem X2_first_row_sets_item (before after : list row) (r : row) :
  (forall r0, r0 ∈ before -> row_id r0 <> row_id r) ->
  exists b,
    collect_rows (before ++ r :: after) !! row_id r = Some b
    /\ title b = row_title r /\ path b = row_path r
    /\ series b = row_series r /\ series_index b = row_series_index r
    /\ book_metadata b = {| author_sort := row_author_sort r;
                            timestamp := row_timestamp r;
                            pubdate := row_pubdate r |}.
Proof.
  intros Hfirst.
  destruct (collect_rows_at_row before after r)
    as (b1 & b & _ & _ & Hnew & Hb & Hsame & _).
  exists b. split; [exact Hb|].
  destruct (same_item_trans _ _ _ (Hnew Hfirst) Hsame) as (A & B & C & D & E).
  repeat split; assumption.
Qed.

(** X3: the entry of a format of a book is built from the last row with
    that book id and that format: a later row of the same book with another
    format, or of another book, leaves it as it is. *)
Theorem X3_last_row_sets_format (before after : list row) (r : row) :
  (forall r0, r0 ∈ after ->
     (row_id r, row_format r) <> (row_id r0, row_format r0)) ->
  exists b,
    collect_rows (before ++ r :: after) !! row_id r = Some b
    /\ formats b !! row_format r =
         Some {| fd_name := row_name r;
                 fd_last_modified := row_last_modified r;
                 fd_size := row_size r |}.
Proof.
  intros Hlast.
  destruct (collect_rows_at_row before after r)
    as (b1 & b & _ & Hf1 & _ & Hb & _ & Hkeep).
  exists b. split; [exact Hb|]. rewrite (Hkeep Hlast). exact Hf1.
Qed.

Lemma X2_first_row_sets_item_witness :
  exists b, collect_rows sample_rows !! 1 = Some b
            /\ title b = "Batman" /\ series b = Some "Detective Comics".
Proof.
  destruct (X2_first_row_sets_item []
              [sample_row 1 "Batman again" None Cbr "Batman - Bob Kane";
               sample_row 2 "Annual" None Cbr "Annual - Bob Kane"]
              (sample_row 1 "Batman" (Some "Detective Comics") Cbz
                 "Batman - Bob Kane"))
    as (b & Hb & Ht & _ & Hs & _).
  - intros r0 Hr0. apply elem_of_nil in Hr0. destruct Hr0.
  - exists b. split; [exact Hb|]. split; [exact Ht|exact Hs].
Defined.

Lemma X3_last_row_sets_format_witness :
  exists b, collect_rows sample_rows !! 1 = Some b
            /\ is_Some (formats b !! Cbr).
Proof.
  destruct (X3_last_row_sets_format
              [sample_row 1 "Batman" (Some "Detective Comics") Cbz
                 "Batman - Bob Kane"]
              [sample_row 2 "Annual" None Cbr "Annual - Bob Kane"]
              (sample_row 1 "Batman again" None Cbr "Batman - Bob Kane"))
    as (b & Hb & Hf).
  - intros r0 Hr0. apply list_elem_of_singleton in Hr0. subst r0.
    cbn. intros E. discriminate E.
  - exists b. split; [exact Hb|]. cbn in Hf. rewrite Hf. eauto.
Defined.

(** ** Where the derived paths lie *)

Lemma all_chars_append p (a b : string) :
  all_chars p (a +:+ b) = all_chars p a && all_chars p b.
Proof.
  induction a as [|c a IH]; [reflexivity|].
  rewrite append_cons. cbn [all_chars]. rewrite IH, andb_assoc. reflexivity.
Qed.

Lemma all_chars_rev p (s : string) : all_chars p (PyStr.rev s) = all_chars p s.
Proof.
  induction s as [|c s IH]; [reflexivity|].
  rewrite rev_cons, all_chars_append, IH. cbn [all_chars].
  rewrite andb_true_r. apply andb_comm.
Qed.

Lemma all_chars_lstrip p (s : string) :
  all_chars p s = true -> all_chars p (PyStr.lstrip s) = true.
Proof.
  induction s as [|c s IH]; cbn [PyStr.lstrip all_chars]; [reflexivity|].
  intros H. destruct (PyStr.isspace c); [|exact H].
  apply andb_true_iff in H. apply IH, H.
Qed.

Lemma all_chars_filter p (s : string) : all_chars p (PyStr.filter p s) = true.
Proof.
  induction s as [|c s IH]; cbn [PyStr.filter]; [reflexivity|].
  destruct (p c) eqn:Hc; [|exact IH]. cbn [all_chars]. rewrite Hc, IH.
  reflexivity.
Qed.

Lemma all_chars_sanitize (s : string) :
  all_chars is_kept (PyStr.sanitize s) = true.
Proof.
  unfold PyStr.sanitize, PyStr.strip, PyStr.rstrip.
  rewrite all_chars_rev. apply all_chars_lstrip. rewrite all_chars_rev.
  apply all_chars_lstrip. apply (all_chars_filter is_kept).
Qed.

Lemma all_chars_no_slash (s : string) :
  all_chars is_kept s = true -> no_slash s = true.
Proof.
  induction s as [|c s IH]; [reflexivity|]. cbn [all_chars no_slash].
  intros H. apply andb_true_iff in H as [Hc Hs]. rewrite (IH Hs), andb_true_r.
  apply negb_true_iff. destruct (Ascii.eqb_spec c "/"); [|reflexivity].
  subst c. discriminate Hc.
Qed.

Lemma all_chars_folder_name b : all_chars is_kept (folder_name b) = true.
Proof.
  unfold folder_name. destruct (series_present b);
    [apply all_chars_sanitize|reflexivity].
Qed.

Lemma target_folder_join self b :
  target_folder self b = OsPath.join (output_path self) (folder_name b).
Proof. unfold target_folder, folder_name. destruct (series_present b); reflexivity. Qed.

(** [os.path.join(out, "")], the output root with one slash at its end. *)
Lemma join_root (out : string) :
  out <> "" ->
  PyStr.endswith "/" (OsPath.join out "") = true
  /\ forall f, no_slash f = true ->
       OsPath.join out f = OsPath.join out "" +:+ f.
Proof.
  intros Hne. unfold OsPath.join at 1 3.
  change (PyStr.startswith "/" "") with false. cbv iota.
  destruct (String.eqb_spec out "") as [|_]; [contradiction|]. cbn [orb].
  destruct (PyStr.endswith "/" out) eqn:He.
  - rewrite append_nil_r. split; [exact He|]. intros f Hf.
    unfold OsPath.join. rewrite (startswith_slash_no_slash f Hf), He.
    destruct (String.eqb out ""); reflexivity.
  - split.
    + change ("/" +:+ "") with "/". apply endswith_append.
    + intros f Hf. unfold OsPath.join.
      rewrite (startswith_slash_no_slash f Hf), He.
      destruct (String.eqb_spec out "") as [|_]; [contradiction|]. cbn [orb].
      rewrite !append_assoc. reflexivity.
Qed.

Lemma endswith_slash_no_slash (pre cs : string) :
  no_slash cs = true -> cs <> "" -> PyStr.endswith "/" (pre +:+ cs) = false.
Proof.
  intros Hcs Hne. unfold PyStr.endswith. rewrite rev_append.
  change (PyStr.rev "/") with "/".
  destruct (PyStr.rev cs) as [|c r] eqn:Hr.
  - exfalso. apply Hne. rewrite <- (rev_involutive cs), Hr. reflexivity.
  - rewrite append_cons. cbn [PyStr.startswith]. rewrite andb_true_r.
    rewrite <- no_slash_rev, Hr in Hcs. cbn [no_slash] in Hcs.
    apply andb_true_iff in Hcs as [Hc _]. apply negb_true_iff in Hc.
    rewrite Ascii.eqb_sym. exact Hc.
Qed.

Lemma target_name_nonempty b f : (0 < String.length (target_name b f))%nat.
Proof.
  unfold target_name. rewrite !length_append. cbn [String.length]. lia.
Qed.

Lemma target_path_shape self b f :
  output_path self <> "" ->
  target_path self b f =
    OsPath.join (output_path self) ""
    +:+ (if String.eqb (folder_name b) "" then "" else folder_name b +:+ "/")
    +:+ target_name b f.
Proof.
  intros Hne. destruct (join_root (output_path self) Hne) as [Hend Hjoin].
  pose proof (all_chars_no_slash _ (all_chars_folder_name b)) as Hcs.
  rewrite target_path_join, target_folder_join, (Hjoin _ Hcs).
  unfold OsPath.join at 1.
  rewrite (startswith_slash_no_slash _ (no_slash_target_name b f)).
  destruct (String.eqb_spec (folder_name b) "") as [E|Hcne].
  - rewrite E, append_nil_r, Hend, orb_true_r. reflexivity.
  - rewrite (endswith_slash_no_slash _ _ Hcs Hcne).
    destruct (String.eqb_spec (OsPath.join (output_path self) "" +:+ folder_name b) "")
      as [E|_].
    + exfalso. apply (f_equal String.length) in E. rewrite length_append in E.
      cbn [String.length] in E.
      destruct (folder_name b); [contradiction|]. cbn [String.length] in E. lia.
    + cbn [orb]. rewrite !append_assoc. reflexivity.
Qed.

Lemma target_below_root self b f :
  output_path self <> "" ->
  Os.below (output_path self) (target_path self b f) = true.
Proof.
  intros Hne. rewrite (target_path_shape self b f Hne). unfold Os.below.
  destruct (String.eqb_spec (output_path self) "") as [|_]; [contradiction|].
  rewrite startswith_append. cbn [negb andb].
  apply negb_true_iff, String.eqb_neq. intros E.
  apply (f_equal String.length) in E. rewrite !length_append in E.
  pose proof (target_name_nonempty b f). lia.
Qed.

(** X4: whatever the title and the series of a book hold, the path that
    [_get_target_path] derives lies below the output root: it is the root,
    the folder name (left out when the series sanitizes to nothing) and the
    file name; the folder name consists of alphanumerics, spaces, hyphens
    and underscores only, and the file name has no slash. A title or a
    series cannot lead out of the output tree. *)
Theorem X4_target_below_root self b f :
  output_path self <> "" ->
  target_path self b f =
    OsPath.join (output_path self) ""
    +:+ (if String.eqb (folder_name b) "" then "" else folder_name b +:+ "/")
    +:+ target_name b f
  /\ all_chars is_kept (folder_name b) = true
  /\ no_slash (target_name b f) = true
  /\ Os.below (output_path self) (target_path self b f) = true.
Proof.
  intros Hne. split; [apply target_path_shape, Hne|].
  split; [apply all_chars_folder_name|].
  split; [apply no_slash_target_name|apply target_below_root, Hne].
Qed.

Lemma X4_target_below_root_witness :
  Os.below "/yac"
    (target_path sample_manager
       {| title := "../../etc/passwd"; path := "x"; series := Some "../..";
          series_index := None; formats := ∅;
          book_metadata := {| author_sort := None; timestamp := None;
                              pubdate := None |} |} Cbz) = true.
Proof.
  refine (proj2 (proj2 (proj2 (X4_target_below_root sample_manager _ Cbz _)))).
  cbn. discriminate.
Defined.

(** ** The format of the series index *)

Lemma length_uint_nonempty (d : Decimal.uint) :
  (0 < String.length (NilZero.string_of_uint d))%nat.
Proof. destruct d; cbn; lia. Qed.

Lemma length_of_N n : (0 < String.length (PyStr.of_N n))%nat.
Proof. apply length_uint_nonempty. Qed.

Lemma of_N_digit (n : N) :
  (n < 10)%N -> String.length (PyStr.of_N n) = 1%nat.
Proof.
  intros H. destruct n as [|p]; [reflexivity|].
  do 4 (destruct p as [p|p|]; try reflexivity; try lia).
Qed.

(** X5: the width 2 of the format [02.1f] never adds a zero: for every
    float the field is its sign and its digits, and for a finite value the
    digits are at least one before the point and one after it. An index
    below ten is written with one integer digit. *)
Theorem X5_format_never_pads (x : spec_float) :
  PyFloat.format_02_1f x = PyFloat.sign x +:+ PyFloat.body x
  /\ (forall s m e, x = S754_finite s m e ->
        PyFloat.body x =
          PyStr.of_N (PyFloat.tenths m e / 10) +:+ "."
          +:+ PyStr.of_N (PyFloat.tenths m e mod 10)
        /\ String.length (PyStr.of_N (PyFloat.tenths m e mod 10)) = 1%nat
        /\ (0 < String.length (PyStr.of_N (PyFloat.tenths m e / 10)))%nat).
Proof.
  split.
  - unfold PyFloat.format_02_1f, PyFloat.format_0w_1f.
    assert (Hlen : (2 <= String.length (PyFloat.body x))%nat).
    { destruct x as [s|s| |s m e]; cbn [PyFloat.body String.length]; try lia.
      rewrite !length_append. cbn [String.length].
      pose proof (length_of_N (PyFloat.tenths m e / 10)).
      pose proof (length_of_N (PyFloat.tenths m e mod 10)). lia. }
    replace (2 - String.length (PyFloat.sign x)
               - String.length (PyFloat.body x))%nat with 0%nat by lia.
    reflexivity.
  - intros s m e ->. split; [reflexivity|]. split.
    + apply of_N_digit. apply N.mod_lt. discriminate.
    + apply length_of_N.
Qed.

(** ** What the materialization worker does *)


Lemma parent_ok_delete w p q :
  Os.isdir w q = false ->
  Os.parent_ok (set_tree (delete q) w) p = Os.parent_ok w p.
Proof.
  intros Hq. unfold Os.parent_ok. f_equal. unfold Os.isdir in *.
  cbn [tree set_tree].
  destruct (decide (OsPath.dirname p = q)) as [->|Hne].
  - rewrite lookup_delete_eq, Hq. apply bool_decide_eq_false. discriminate.
  - rewrite lookup_delete_ne by congruence. reflexivity.
Qed.





(** X8: with a [LIBRARY_METHOD] that is neither [link] nor [copy], or with
    the name unbound, [_process_file] still removes the file that the target
    path holds and then creates nothing: the target is gone afterwards and
    only the error is logged. *)
Theorem X8_invalid_method_removes_target (method : library_method)
  (source_file target_file : string) (book_id : Z) (b : book_data)
  (f : format_type) w :
  method <> MethodLink -> method <> MethodCopy ->
  Os.path_exists w target_file = true ->
  Os.isdir w target_file = false ->
  target_file ∉ denied w ->
  exists record,
    _process_file method (source_file, target_file, book_id, b, f) w
      = (Ok tt, add_log record (set_tree (delete target_file) w))
    /\ record = match method with
                | MethodUnbound =>
                    ErrorProcessing (OsPath.basename source_file) NameError
                | _ => ErrorInvalidMethod
                end
    /\ tree (add_log record (set_tree (delete target_file) w)) !! target_file
       = None.
Proof.
  intros Hl Hc Hex Hdir Hden.
  assert (Hrm : Os.remove target_file w
                = (Ok tt, set_tree (delete target_file) w)).
  { unfold Os.remove. pose proof Hex as Hsome.
    apply path_exists_some in Hsome as [n Hn]. rewrite Hn.
    unfold Os.isdir in Hdir. rewrite Hn in Hdir.
    destruct n; [| |apply bool_decide_eq_false in Hdir; congruence];
      rewrite bool_decide_eq_false_2 by exact Hden; reflexivity. }
  eexists. split; [|split; [reflexivity|]].
  - unfold _process_file, try_except. unfold bind at 1, get. rewrite Hex.
    erewrite bind_ok by exact Hrm.
    destruct method; [contradiction|contradiction| |]; reflexivity.
  - cbn [tree add_log set_tree]. apply lookup_delete_eq.
Qed.

Lemma X8_invalid_method_removes_target_witness :
  tree (_process_file (MethodOther "move")
          ("/library/Bob Kane/Batman (1)/Batman - Bob Kane.cbz",
           "/yac/Old Series/1.0 - Gone.CBZ", 1, batman, Cbz) sample_world).2
    !! "/yac/Old Series/1.0 - Gone.CBZ" = None.
Proof.
  destruct (X8_invalid_method_removes_target (MethodOther "move")
              "/library/Bob Kane/Batman (1)/Batman - Bob Kane.cbz"
              "/yac/Old Series/1.0 - Gone.CBZ" 1 batman Cbz sample_world)
    as (record & Hrun & _ & Hgone).
  - discriminate.
  - discriminate.
  - vm_compute. reflexivity.
  - vm_compute. reflexivity.
  - intros H. apply elem_of_empty in H. exact H.
  - rewrite Hrun. exact Hgone.
Defined.

(** ** Deriving a path twice *)

(** X9: creating the target folder is idempotent: once [_get_target_path]
    has returned for a book, calling it again for that book (in any format)
    returns the derived path and changes nothing. *)
Theorem X9_get_target_path_twice self b f f' w t w1 :
  _get_target_path self b f w = (Ok t, w1) ->
  _get_target_path self b f' w1 = (Ok (target_path self b f'), w1)
  /\ t = target_path self b f.
Proof.
  intros H. rewrite get_target_path_run in H.
  destruct (Os.makedirs (target_folder self b) w) as [[[]|e] w2] eqn:Hm;
    [|discriminate].
  injection H as <- <-.
  apply makedirs_spec in Hm as (_ & Hdir & _).
  destruct (Hdir eq_refl) as [Hne Hd].
  split; [|reflexivity]. apply get_target_path_stable; assumption.
Qed.

Lemma X9_get_target_path_twice_witness :
  exists w1,
    _get_target_path sample_manager batman Cbz sample_world
      = (Ok "/yac/Detective Comics/3.0 - Batman.cbz", w1)
    /\ _get_target_path sample_manager batman Cbz w1
      = (Ok "/yac/Detective Comics/3.0 - Batman.cbz", w1).
Proof.
  assert (X : (_get_target_path sample_manager batman Cbz sample_world).1
              = Ok "/yac/Detective Comics/3.0 - Batman.cbz")
    by (vm_compute; reflexivity).
  destruct (_get_target_path sample_manager batman Cbz sample_world)
    as [o w1] eqn:H.
  cbn [fst] in X. subst o. exists w1. split; [reflexivity|].
  exact (proj1 (X9_get_target_path_twice _ _ _ Cbz _ _ _ H)).
Defined.

(** ** The cache file *)



(** X11: a cache file whose text is not JSON is not fatal: loading it
    returns the empty mapping, writes one warning to the log and changes
    nothing else. *)
Theorem X11_malformed_cache_is_empty self w :
  Os.isfile w (metadata_cache_file self) = true ->
  cache_data w = MalformedJson ->
  _load_metadata_cache self w = (Ok ∅, add_log WarningCorruptedCache w).
Proof.
  intros Hfile Hdata. rewrite load_cache_present by exact Hfile.
  rewrite Hdata. reflexivity.
Qed.

Lemma X11_malformed_cache_is_empty_witness :
  _load_metadata_cache sample_manager malformed_world
  = (Ok ∅, add_log WarningCorruptedCache malformed_world).
Proof.
  apply X11_malformed_cache_is_empty; vm_compute; reflexivity.
Defined.




(** ** What the plan of a pass does to the tree *)



(** X14: the two phases of the executor work on disjoint paths: no target
    of an entry of [to_process] is in [to_remove], and every path of
    [to_remove] holds a file below the output root. *)
Theorem X14_phases_are_disjoint self tag w
  (current : catalog) (to_process : list pending) (to_remove : gset string) w1 :
  plan self tag w = (Ok (current, to_process, to_remove), w1) ->
  (forall j, j ∈ to_process -> target_of j ∉ to_remove)
  /\ (forall p, p ∈ to_remove ->
        is_Some (file_at w p) /\ Os.below (output_path self) p = true).
Proof.
  intros H. apply plan_spec in H as ((_ & Hfile & _) & Hok).
  destruct (Hok current to_process to_remove eq_refl) as (_ & Htp & Htr & _).
  split.
  - intros j Hj Hin. apply Htr in Hin as [_ Hnot]. apply Hnot.
    destruct (Htp j Hj) as (x & Hx & Ht). eauto.
  - intros p Hp. apply Htr in Hp as [(Hsome & Hbelow & _) _].
    rewrite (Hfile p (fun F : nowhere p => F)) in Hsome. split; assumption.
Qed.

Lemma X14_phases_are_disjoint_witness :
  match (plan sample_manager "Comics" sample_world).1 with
  | Ok (_, to_process, to_remove) =>
      forallb (fun j => negb (bool_decide (target_of j ∈ to_remove)))
        to_process = true
  | Raise _ => False
  end.
Proof.
  assert (X : match (plan sample_manager "Comics" sample_world).1 with
              | Ok _ => true
              | Raise _ => false
              end = true) by (vm_compute; reflexivity).
  destruct (plan sample_manager "Comics" sample_world)
    as [[[[cur tp] tr]|e] w1] eqn:H; cbn [fst] in *; [|discriminate X].
  destruct (X14_phases_are_disjoint _ _ _ _ _ _ _ H) as [Hdisj _].
  apply forallb_forall. intros j Hj. apply negb_true_iff, bool_decide_eq_false.
  apply Hdisj, list_elem_of_In, Hj.
Defined.



(** ** Outside the output root *)

Lemma outside_kept_refl top w : outside_kept top w w.
Proof. intros p _ _. reflexivity. Qed.




Lemma sweep_loop_outside (l : list string) w o w' d :
  for_each l (fun dir_path =>
    entries <- get (fun w => Os.listdir w dir_path) ;;
    match entries with
    | [] =>
        if negb (PyStr.endswith ".git" dir_path) then Os.rmdir dir_path
        else ret tt
    | _ => ret tt
    end) w = (o, w') ->
  d ∉ l ->
  tree w' !! d = tree w !! d.
Proof.
  revert w o w'. induction l as [|x l IH]; intros w o w' H Hd.
  - injection H as <- <-. reflexivity.
  - apply not_elem_of_cons in Hd as [Hne Hd].
    cbn [for_each] in H. unfold bind at 1 in H.
    match type of H with (match ?m w with _ => _ end) = _ =>
      destruct (m w) as [o1 w1] eqn:Hstep;
      assert (Hs : tree w1 !! d = tree w !! d)
    end.
    { unfold bind, get in Hstep. destruct (Os.listdir w x) as [|c cs] eqn:Hl.
      - destruct (negb (PyStr.endswith ".git" x)).
        + unfold Os.rmdir in Hstep. rewrite Hl in Hstep.
          destruct (tree w !! x) as [[]|];
            try (injection Hstep as <- <-; reflexivity).
          destruct (bool_decide (x ∈ denied w)); injection Hstep as <- <-;
            [reflexivity|].
          cbn [tree set_tree]. apply lookup_delete_ne. congruence.
        + injection Hstep as <- <-. reflexivity.
      - injection Hstep as <- <-. reflexivity. }
    destruct o1 as [[]|e].
    + rewrite (IH _ _ _ H Hd). exact Hs.
    + injection H as <- <-. exact Hs.
Qed.

Lemma sweep_outside self w o w' :
  sweep self w = (o, w') -> outside_kept (output_path self) w w'.
Proof.
  unfold sweep, bind at 1, get. intros H p Hp _.
  eapply sweep_loop_outside; [exact H|].
  unfold Os.walk_dirs_bottom_up. rewrite merge_sort_Permutation.
  rewrite list_elem_of_In, filter_In. intros [_ Hin].
  apply andb_true_iff in Hin as [Hin _]. congruence.
Qed.




(** ** Several tags *)






(** ** Where directories appear *)

Lemma length_drop_while (s : string) :
  (String.length (OsPath.drop_while_not_slash s) <= String.length s)%nat.
Proof.
  induction s as [|c s IH]; cbn [OsPath.drop_while_not_slash String.length];
    [lia|].
  destruct (Ascii.eqb c "/"); cbn [String.length]; lia.
Qed.

Lemma length_dirname (p : string) :
  (String.length (OsPath.dirname p) <= String.length p)%nat.
Proof.
  unfold OsPath.dirname. cbv zeta.
  set (head := PyStr.rev (OsPath.drop_while_not_slash (PyStr.rev p))).
  assert (Hh : (String.length head <= String.length p)%nat).
  { unfold head. rewrite length_rev.
    etransitivity; [apply length_drop_while|]. rewrite length_rev. lia. }
  destruct (String.eqb _ ""); [exact Hh|].
  rewrite length_rev. etransitivity; [apply length_drop_slashes|].
  rewrite length_rev. exact Hh.
Qed.

Lemma ancestors_length n (p a : string) :
  a ∈ Os.ancestors n p ->
  (String.length a <= String.length (OsPath.dirname p))%nat.
Proof.
  revert p. induction n as [|n IH]; intros p Ha; cbn [Os.ancestors] in Ha.
  - apply elem_of_nil in Ha. destruct Ha.
  - cbv zeta in Ha.
    match type of Ha with context [if ?c then _ else _] => destruct c end.
    + apply elem_of_nil in Ha. destruct Ha.
    + apply elem_of_cons in Ha as [->|Ha]; [lia|].
      apply IH in Ha. etransitivity; [exact Ha|apply length_dirname].
Qed.

Lemma makedirs_where d w o w' p :
  Os.makedirs d w = (o, w') ->
  tree w' !! p = Some Directory ->
  tree w !! p = Some Directory \/ p = Os.norm_dir d
  \/ (String.length p <= String.length (OsPath.dirname (Os.norm_dir d)))%nat.
Proof.
  unfold Os.makedirs. intros H Hp. cbv zeta in H.
  destruct (String.eqb d ""); [injection H as <- <-; left; exact Hp|].
  destruct (tree w !! Os.norm_dir d) as [n|] eqn:Hd.
  { destruct n; injection H as <- <-; left; exact Hp. }
  match type of H with (if existsb ?f ?l then _ else _) = _ =>
    set (anc := l) in *; destruct (existsb f anc) end.
  { injection H as <- <-. left. exact Hp. }
  destruct (bool_decide _); injection H as <- <-; [left; exact Hp|].
  cbn [tree set_tree] in Hp. rewrite lookup_mkdir_all in Hp.
  destruct (decide (p ∈ Os.norm_dir d :: anc)) as [Hin|Hout]; [|left; exact Hp].
  right. apply elem_of_cons in Hin as [->|Hin]; [left; reflexivity|right].
  eapply ancestors_length, Hin.
Qed.

Lemma norm_dir_no_slash_end (pre s : string) :
  no_slash s = true -> s <> "" -> Os.norm_dir (pre +:+ s) = pre +:+ s.
Proof.
  intros Hs Hne. unfold Os.norm_dir. cbv zeta.
  assert (Hd : OsPath.drop_slashes (PyStr.rev (pre +:+ s))
               = PyStr.rev (pre +:+ s)).
  { rewrite rev_append. pose proof (no_slash_rev s) as Hr. rewrite Hs in Hr.
    pose proof (length_rev s) as Hl.
    destruct (PyStr.rev s) as [|c rs].
    - destruct s; [contradiction|discriminate].
    - rewrite append_cons. cbn [OsPath.drop_slashes]. cbn [no_slash] in Hr.
      apply andb_true_iff in Hr as [Hc _]. apply negb_true_iff in Hc.
      rewrite Hc. reflexivity. }
  rewrite Hd, rev_involutive.
  destruct (String.eqb (pre +:+ s) ""); reflexivity.
Qed.

Lemma startswith_length (a b : string) :
  PyStr.startswith a b = true ->
  (String.length a <= String.length b)%nat
  /\ (String.length a = String.length b -> b = a).
Proof.
  revert b. induction a as [|c a IH]; intros [|d b] H;
    cbn [PyStr.startswith String.length] in *.
  - split; [lia|reflexivity].
  - split; [lia|discriminate].
  - discriminate.
  - apply andb_true_iff in H as [Hc H]. apply Ascii.eqb_eq in Hc. subst d.
    destruct (IH b H) as [Hle Heq]. split; [lia|].
    intros E. rewrite Heq; [reflexivity|lia].
Qed.

Lemma below_length top p :
  Os.below top p = true ->
  (String.length (OsPath.join top "") < String.length p)%nat.
Proof.
  unfold Os.below. cbv zeta. intros H.
  apply andb_true_iff in H as [H Hne]. apply andb_true_iff in H as [_ Hs].
  apply startswith_length in Hs as [Hle Heq].
  apply negb_true_iff in Hne. apply String.eqb_neq in Hne.
  destruct (decide (String.length (OsPath.join top "") = String.length p))
    as [E|E]; [|lia].
  exfalso. apply Hne, Heq, E.
Qed.

Lemma folder_dir_short self b :
  output_path self <> "" ->
  (String.length (OsPath.dirname (Os.norm_dir (target_folder self b)))
   <= String.length (OsPath.join (output_path self) ""))%nat.
Proof.
  intros Hne. destruct (join_root _ Hne) as [Hend Hjoin].
  pose proof (all_chars_no_slash _ (all_chars_folder_name b)) as Hcs.
  rewrite target_folder_join, (Hjoin _ Hcs).
  destruct (String.eqb_spec (folder_name b) "") as [E0|Hfne].
  - rewrite E0, append_nil_r.
    etransitivity; [apply length_dirname|apply length_norm_dir].
  - rewrite (norm_dir_no_slash_end _ _ Hcs Hfne).
    rewrite dirname_append; [apply length_norm_dir|exact Hcs|right; exact Hend].
Qed.

(** No target path is a path where the plan creates a directory. *)
Lemma target_not_plan_directory self b f :
  output_path self <> "" -> ~ plan_directory self (target_path self b f).
Proof.
  intros Hne [Hlen|[b' E]].
  - pose proof (below_length _ _ (target_below_root self b f Hne)). lia.
  - destruct (join_root (output_path self) Hne) as [Hend Hjoin].
    pose proof (all_chars_folder_name b') as Hk.
    pose proof (all_chars_no_slash _ Hk) as Hcs.
    rewrite target_folder_join, (Hjoin _ Hcs) in E.
    destruct (String.eqb_spec (folder_name b') "") as [E0|Hfne].
    + rewrite E0, append_nil_r in E.
      pose proof (below_length _ _ (target_below_root self b f Hne)) as Hb.
      pose proof (length_norm_dir (OsPath.join (output_path self) "")) as Hn.
      rewrite <- E in Hn. lia.
    + rewrite (norm_dir_no_slash_end _ _ Hcs Hfne) in E.
      rewrite (target_path_shape self b f Hne) in E.
      apply append_inv_head in E.
      rewrite <- E in Hk. unfold target_name in Hk.
      rewrite !all_chars_append in Hk.
      apply andb_true_iff in Hk as [_ Hk].
      apply andb_true_iff in Hk as [_ Hk].
      apply andb_true_iff in Hk as [Hdot _].
      vm_compute in Hdot. discriminate.
Qed.

Lemma dirs_from_refl self w : dirs_from self w w.
Proof. intros p Hp. left. exact Hp. Qed.

Lemma dirs_from_trans self w1 w2 w3 :
  dirs_from self w1 w2 -> dirs_from self w2 w3 -> dirs_from self w1 w3.
Proof.
  intros H1 H2 p Hp. destruct (H2 p Hp) as [H|H]; [apply H1, H|right; exact H].
Qed.

Lemma get_target_path_where self b f w o w' :
  output_path self <> "" ->
  _get_target_path self b f w = (o, w') -> dirs_from self w w'.
Proof.
  intros Hne H p Hp. rewrite get_target_path_run in H.
  destruct (Os.makedirs (target_folder self b) w) as [[[]|e] w1] eqn:Hm;
    injection H as <- <-;
    (destruct (makedirs_where _ _ _ _ p Hm Hp) as [Hold|[->|Hlen]];
     [left; exact Hold
     |right; right; exists b; reflexivity
     |right; left; etransitivity; [exact Hlen|apply folder_dir_short, Hne]]).
Qed.

(** ** Following links *)

Lemma isfile_fuel_same n (t t' : gmap string node) :
  (forall p, match t' !! p with Some Directory => None | x => x end
             = match t !! p with Some Directory => None | x => x end) ->
  forall p, Os.isfile_fuel n t' p = Os.isfile_fuel n t p.
Proof.
  intros H. induction n as [|n IH]; intros p; cbn [Os.isfile_fuel];
    [reflexivity|].
  specialize (H p).
  destruct (t' !! p) as [[]|], (t !! p) as [[]|];
    try discriminate; try reflexivity.
  injection H as ->. apply IH.
Qed.

Lemma isfile_same w w' p :
  (forall q, file_at w' q = file_at w q) -> Os.isfile w' p = Os.isfile w p.
Proof. intros H. apply isfile_fuel_same. exact H. Qed.

Lemma file_at_Some w p n : file_at w p = Some n -> tree w !! p = Some n.
Proof.
  unfold file_at. destruct (tree w !! p) as [[]|]; intros H;
    first [exact H|discriminate].
Qed.

Lemma file_at_file w p n :
  tree w !! p = Some n -> n <> Directory -> file_at w p = Some n.
Proof.
  unfold file_at. intros -> Hn. destruct n; [reflexivity|reflexivity|].
  contradiction.
Qed.

Lemma isfile_entry w p :
  Os.isfile w p = true ->
  exists n, tree w !! p = Some n /\ n <> Directory.
Proof.
  unfold Os.isfile. cbn [Os.isfile_fuel].
  destruct (tree w !! p) as [[]|]; intros H; try discriminate;
    eexists; (split; [reflexivity|discriminate]).
Qed.

(** ** What the first loop queues *)

Lemma check_pair_complete self cached x w found w' :
  output_path self <> "" ->
  check_pair self cached x w = (Ok found, w') ->
  dirs_from self w w'
  /\ (forall j, j ∈ found -> j = pair_entry self x)
  /\ (pair_entry self x ∈ found
      \/ Os.isfile w (pair_target self x) = true
      \/ tree w' !! pair_target self x = Some Directory).
Proof.
  intros Hne. destruct x as [[[book_id b] f] fd]. unfold check_pair. intros H.
  unfold bind at 1 in H.
  destruct (_get_target_path self b f w) as [[t|e] w1] eqn:Ht; [|discriminate].
  pose proof (get_target_path_where _ _ _ _ _ _ Hne Ht) as Hwhere.
  apply get_target_path_spec in Ht as (Hq & Hok).
  destruct (Hok t eq_refl) as [-> _].
  unfold bind, get, ret in H. injection H as <- <-.
  split; [exact Hwhere|].
  destruct (needs_update _ _ _ _ _ _ _) eqn:Hn.
  - split; [|left; apply list_elem_of_here].
    intros j Hj. apply list_elem_of_singleton in Hj. exact Hj.
  - split; [intros j Hj; apply elem_of_nil in Hj; destruct Hj|]. right.
    assert (Hex : Os.path_exists w1 (target_path self b f) = true).
    { unfold needs_update in Hn. destruct (cached !! _); [|discriminate].
      apply negb_false_iff in Hn. apply andb_true_iff in Hn as [_ Hn].
      exact Hn. }
    unfold Os.path_exists in Hex. apply orb_true_iff in Hex as [Hf|Hd].
    + left. rewrite <- (isfile_same w w1); [exact Hf|].
      intros q. destruct Hq as (_ & Hfa & _). apply Hfa. intros [].
    + right. apply bool_decide_eq_true in Hd. exact Hd.
Qed.

Lemma find_updates_complete self cached l w to_process w' :
  output_path self <> "" ->
  find_updates self cached l w = (Ok to_process, w') ->
  dirs_from self w w'
  /\ (forall j, j ∈ to_process -> exists x, x ∈ l /\ j = pair_entry self x)
  /\ (forall x, x ∈ l ->
        pair_entry self x ∈ to_process
        \/ Os.isfile w (pair_target self x) = true
        \/ tree w' !! pair_target self x = Some Directory).
Proof.
  intros Hne. revert w to_process w'.
  induction l as [|x l IH]; intros w tp w' H.
  - injection H as <- <-. split; [apply dirs_from_refl|]. split.
    + intros j Hj. apply elem_of_nil in Hj. destruct Hj.
    + intros y Hy. apply elem_of_nil in Hy. destruct Hy.
  - cbn [find_updates] in H. unfold bind at 1 in H.
    destruct (check_pair self cached x w) as [[here|e] w1] eqn:Hc;
      [|discriminate].
    unfold bind at 1 in H.
    destruct (find_updates self cached l w1) as [[rest|e] w2] eqn:Hr;
      [|discriminate].
    injection H as <- <-.
    pose proof (find_updates_spec _ _ _ _ _ _ Hr) as [Hq2 _].
    pose proof (check_pair_spec _ _ _ _ _ _ Hc) as [Hq1 _].
    apply (check_pair_complete _ _ _ _ _ _ Hne) in Hc as (Hd1 & Hm1 & Hc1).
    apply IH in Hr as (Hd2 & Hm2 & Hc2).
    split; [eapply dirs_from_trans; eassumption|]. split.
    + intros j Hj. apply elem_of_app in Hj as [Hj|Hj].
      * exists x. split; [apply list_elem_of_here|apply Hm1, Hj].
      * destruct (Hm2 j Hj) as (y & Hy & E).
        exists y. split; [apply list_elem_of_further, Hy|exact E].
    + intros y Hy. apply elem_of_cons in Hy as [->|Hy].
      * destruct Hc1 as [Hin|[Hf|Hd]].
        -- left. apply elem_of_app. left. exact Hin.
        -- right. left. exact Hf.
        -- right. right. destruct Hq2 as (_ & _ & Hkeep). apply Hkeep, Hd.
      * destruct (Hc2 y Hy) as [Hin|[Hf|Hd]].
        -- left. apply elem_of_app. right. exact Hin.
        -- right. left. rewrite <- (isfile_same w w1); [exact Hf|].
           intros q. destruct Hq1 as (_ & Hfa & _). apply Hfa. intros [].
        -- right. right. exact Hd.
Qed.

Lemma find_current_files_where self l w o w' :
  output_path self <> "" ->
  find_current_files self l w = (o, w') -> dirs_from self w w'.
Proof.
  intros Hne. revert w o w'. induction l as [|x l IH]; intros w o w' H.
  - injection H as <- <-. apply dirs_from_refl.
  - destruct x as [[[book_id b] f] fd]. cbn [find_current_files] in H.
    unfold bind at 1 in H.
    destruct (_get_target_path self b f w) as [[t|e] w1] eqn:Ht;
      apply (get_target_path_where _ _ _ _ _ _ Hne) in Ht.
    2:{ injection H as <- <-. exact Ht. }
    unfold bind at 1 in H.
    destruct (find_current_files self l w1) as [[rest|e] w2] eqn:Hr;
      apply IH in Hr; injection H as <- <-;
      eapply dirs_from_trans; eassumption.
Qed.

Lemma load_cache_tree self w o w' :
  _load_metadata_cache self w = (o, w') -> tree w' = tree w.
Proof.
  unfold _load_metadata_cache, bind, get, try_except, json_load.
  destruct (Os.path_exists w (metadata_cache_file self)).
  2:{ intros H. injection H as <- <-. reflexivity. }
  destruct (Os.isdir w _).
  { cbn. intros H. injection H as <- <-. reflexivity. }
  destruct (negb (Os.isfile w _)).
  { cbn. intros H. injection H as <- <-. reflexivity. }
  destruct (cache_data w); cbn; intros H; injection H as <- <-; reflexivity.
Qed.

Lemma plan_complete self tag w (current : catalog) (to_process : list pending)
  (to_remove : gset string) w1 :
  output_path self <> "" ->
  plan self tag w = (Ok (current, to_process, to_remove), w1) ->
  dirs_from self w w1
  /\ (forall j, j ∈ to_process ->
        exists x, x ∈ pairs current /\ j = pair_entry self x)
  /\ (forall x, x ∈ pairs current ->
        pair_entry self x ∈ to_process
        \/ Os.isfile w (pair_target self x) = true
        \/ tree w1 !! pair_target self x = Some Directory).
Proof.
  intros Hne. unfold plan. intros H.
  unfold bind at 1, logging, modify in H.
  set (w0 := add_log (InfoStarting tag) w) in H.
  unfold bind at 1, _get_metadata_from_db in H.
  change (db w0 tag) with (db w tag) in H.
  destruct (db w tag) as [c|] eqn:Hdb; [|discriminate].
  unfold bind at 1 in H.
  destruct (_load_metadata_cache self w0) as [[cached|e] wa] eqn:Hload;
    [|discriminate].
  apply load_cache_tree in Hload. change (tree w0) with (tree w) in Hload.
  unfold bind at 1 in H.
  destruct (reconcile self c cached wa) as [[[tp tr]|e] w2] eqn:Hrec;
    [|discriminate].
  injection H as <- <- <- <-.
  unfold reconcile in Hrec. unfold bind at 1 in Hrec.
  destruct (find_updates self cached (pairs c) wa) as [[tp'|e] wb] eqn:H1;
    [|discriminate].
  unfold bind at 1 in Hrec.
  destruct (find_current_files self (pairs c) wb) as [[cf|e] wc] eqn:H2;
    [|discriminate].
  destruct (find_existing_files_spec self wc) as (ex & Hex & _).
  unfold bind at 1 in Hrec. rewrite Hex in Hrec. unfold ret in Hrec.
  injection Hrec as <- <- <-.
  pose proof (find_current_files_spec _ _ _ _ _ H2) as [(_ & _ & Hkeep) _].
  apply (find_current_files_where _ _ _ _ _ Hne) in H2.
  apply (find_updates_complete _ _ _ _ _ _ Hne) in H1 as (Hd1 & Hm & Hc).
  assert (Hda : dirs_from self w wa).
  { intros p Hp. left. rewrite <- Hload. exact Hp. }
  split; [|split].
  - eapply dirs_from_trans; [|exact H2].
    eapply dirs_from_trans; eassumption.
  - exact Hm.
  - intros x Hx. destruct (Hc x Hx) as [Hin|[Hf|Hd]].
    + left. exact Hin.
    + right. left. unfold Os.isfile in *. rewrite <- Hload. exact Hf.
    + right. right. apply Hkeep, Hd.
Qed.

(** ** The copies of a pass *)





Lemma pair_entry_parts self x :
  source_of (pair_entry self x) = pair_source self x
  /\ target_of (pair_entry self x) = pair_target self x.
Proof. destruct x as [[[book_id b] f] fd]. split; reflexivity. Qed.



(** ** What the sweep leaves *)

Lemma drop_while_same_length (s : string) :
  String.length (OsPath.drop_while_not_slash s) = String.length s ->
  OsPath.drop_while_not_slash s = s.
Proof.
  destruct s as [|c s]; [reflexivity|].
  cbn [OsPath.drop_while_not_slash String.length].
  destruct (Ascii.eqb c "/"); [reflexivity|].
  pose proof (length_drop_while s). lia.
Qed.

Lemma drop_slashes_same_length (s : string) :
  String.length (OsPath.drop_slashes s) = String.length s ->
  OsPath.drop_slashes s = s.
Proof.
  destruct s as [|c s]; [reflexivity|].
  cbn [OsPath.drop_slashes String.length].
  destruct (Ascii.eqb c "/"); [|reflexivity].
  pose proof (length_drop_slashes s). lia.
Qed.

(** The parent of a path is shorter than the path, unless the path is its
    own parent. *)
Lemma dirname_shorter (c : string) :
  OsPath.dirname c <> c ->
  (String.length (OsPath.dirname c) < String.length c)%nat.
Proof.
  intros Hne. pose proof (length_dirname c) as Hle.
  destruct (decide (String.length (OsPath.dirname c) = String.length c))
    as [E|E]; [|lia].
  exfalso. apply Hne. revert E. unfold OsPath.dirname. cbv zeta.
  set (dw := OsPath.drop_while_not_slash (PyStr.rev c)).
  rewrite rev_involutive.
  pose proof (length_drop_while (PyStr.rev c)) as H1. fold dw in H1.
  rewrite length_rev in H1.
  pose proof (length_drop_slashes dw) as H2.
  assert (Hdw : String.length dw = String.length c -> PyStr.rev dw = c).
  { intros E. unfold dw. rewrite drop_while_same_length.
    - apply rev_involutive.
    - fold dw. rewrite length_rev. exact E. }
  destruct (String.eqb _ ""); rewrite length_rev; intros E.
  - apply Hdw, E.
  - rewrite drop_slashes_same_length by lia. apply Hdw. lia.
Qed.

Lemma listdir_elem w d c :
  c ∈ Os.listdir w d ->
  OsPath.dirname c = d /\ c <> d /\ c ∈ dom (tree w).
Proof.
  unfold Os.listdir.
  rewrite list_elem_of_In, filter_In, <- list_elem_of_In, elem_of_elements.
  intros [Hdom Hc]. apply andb_true_iff in Hc as [H1 H2].
  apply String.eqb_eq in H1. apply negb_true_iff in H2.
  apply String.eqb_neq in H2. auto.
Qed.

Lemma deeper_first_trans : Transitive Os.deeper_first.
Proof. intros a b c. unfold Os.deeper_first. lia. Qed.

Lemma deeper_first_total : Total Os.deeper_first.
Proof. intros a b. unfold Os.deeper_first. lia. Qed.

Lemma sweep_loop_complete (l : list string) w w' d :
  StronglySorted Os.deeper_first l ->
  for_each l (fun dir_path =>
    entries <- get (fun w => Os.listdir w dir_path) ;;
    match entries with
    | [] =>
        if negb (PyStr.endswith ".git" dir_path) then Os.rmdir dir_path
        else ret tt
    | _ => ret tt
    end) w = (Ok tt, w') ->
  d ∈ l -> tree w' !! d = Some Directory ->
  PyStr.endswith ".git" d = false ->
  Os.listdir w' d <> [].
Proof.
  intros Hsorted. revert w.
  induction Hsorted as [|x l Hsl IH Hx]; intros w H Hd Hdir Hgit.
  - apply elem_of_nil in Hd. destruct Hd.
  - cbn [for_each] in H. unfold bind at 1 in H.
    match type of H with (match ?m w with _ => _ end) = _ =>
      destruct (m w) as [o1 w1] eqn:Hstep
    end.
    destruct o1 as [[]|e]; [|discriminate].
    apply elem_of_cons in Hd as [->|Hd]; [|exact (IH w1 H Hd Hdir Hgit)].
    pose proof (sweep_loop_spec _ _ _ _ H) as (_ & Honly & _).
    unfold bind, get in Hstep. destruct (Os.listdir w x) as [|c cs] eqn:Hl.
    + rewrite Hgit in Hstep. cbn [negb] in Hstep.
      exfalso. unfold Os.rmdir in Hstep. rewrite Hl in Hstep.
      destruct (tree w !! x) as [[]|]; try discriminate.
      destruct (bool_decide (x ∈ denied w)); [discriminate|].
      injection Hstep as <-.
      rewrite Honly in Hdir by (rewrite Hdir; eauto).
      cbn [tree set_tree] in Hdir. rewrite lookup_delete_eq in Hdir.
      discriminate.
    + injection Hstep as <-.
      assert (Hc : c ∈ Os.listdir w x) by (rewrite Hl; apply list_elem_of_here).
      apply listdir_elem in Hc as (Hdn & Hne & Hdom).
      assert (Hout : c ∉ l).
      { intros Hin. rewrite Forall_forall in Hx. specialize (Hx c Hin).
        unfold Os.deeper_first in Hx.
        assert (Hp : OsPath.dirname c <> c) by congruence.
        apply dirname_shorter in Hp. rewrite Hdn in Hp. lia. }
      pose proof (sweep_loop_outside _ _ _ _ c H Hout) as Hsame.
      intros Hnil.
      pose proof (listdir_nil w' x c Hnil Hdn Hne) as Hnone.
      rewrite Hsame in Hnone. apply elem_of_dom in Hdom as [n Hn]. congruence.
Qed.

Lemma sweep_complete self w w' d :
  sweep self w = (Ok tt, w') ->
  Os.below (output_path self) d = true ->
  tree w' !! d = Some Directory ->
  PyStr.endswith ".git" d = false ->
  Os.listdir w' d <> [].
Proof.
  intros H Hb Hdir Hgit.
  pose proof (sweep_spec _ _ _ _ H) as (_ & Honly & _).
  unfold sweep, bind at 1, get in H.
  eapply sweep_loop_complete; [|exact H| |exact Hdir|exact Hgit].
  - apply (@StronglySorted_merge_sort _ Os.deeper_first _
             deeper_first_trans deeper_first_total).
  - unfold Os.walk_dirs_bottom_up. rewrite merge_sort_Permutation.
    rewrite list_elem_of_In, filter_In, <- list_elem_of_In, elem_of_elements.
    rewrite Honly in Hdir by (rewrite Hdir; eauto).
    split; [apply elem_of_dom; eauto|].
    rewrite Hb. unfold Os.isdir. rewrite bool_decide_eq_true_2 by exact Hdir.
    reflexivity.
Qed.

(** X19: a pass that returns leaves no empty directory below the output
    root, except those whose path ends in [.git]: the sweep visits every
    directory after the directories it contains, so a directory that
    becomes empty when its last subdirectory is removed is removed too. *)
Theorem X19_no_empty_directory_left self method tag w w' (d : string) :
  sync_tag self method tag w = (Ok tt, w') ->
  Os.below (output_path self) d = true ->
  tree w' !! d = Some Directory ->
  PyStr.endswith ".git" d = false ->
  Os.listdir w' d <> [].
Proof.
  intros H Hb Hdir Hgit.
  apply sync_tag_stages in H as (o1 & w1 & _ & H).
  destruct o1 as [[[c tp] tr]|e]; [|destruct H; discriminate].
  destruct H as (o2 & w2 & _ & H).
  destruct o2 as [[]|e]; [|destruct H; discriminate].
  destruct H as (o3 & w3 & _ & H).
  destruct o3 as [[]|e]; [|destruct H; discriminate].
  destruct H as (o4 & w4 & Hsweep & H).
  destruct o4 as [[]|e]; [|destruct H; discriminate].
  destruct H as [_ ->].
  exact (sweep_complete self w3 w4 d Hsweep Hb Hdir Hgit).
Qed.

Lemma X19_no_empty_directory_left_witness :
  Os.listdir (sync_tag sample_manager MethodCopy "Comics" sample_world).2
    "/yac/Detective Comics" <> []
  /\ tree (sync_tag sample_manager MethodCopy "Comics" sample_world).2
       !! "/yac/Old Series" = None.
Proof.
  split; [|vm_compute; reflexivity].
  assert (X : (sync_tag sample_manager MethodCopy "Comics" sample_world).1
              = Ok tt) by (vm_compute; reflexivity).
  assert (D : tree (sync_tag sample_manager MethodCopy "Comics" sample_world).2
                !! "/yac/Detective Comics" = Some Directory)
    by (vm_compute; reflexivity).
  destruct (sync_tag sample_manager MethodCopy "Comics" sample_world)
    as [o w'] eqn:H.
  cbn [fst snd] in *. subst o.
  apply (X19_no_empty_directory_left sample_manager MethodCopy "Comics"
           sample_world w' "/yac/Detective Comics" H);
    [vm_compute; reflexivity|exact D|vm_compute; reflexivity].
Defined.

(** ** Which directories a pass removes *)

Lemma listdir_empty w d :
  (forall c, OsPath.dirname c = d -> c <> d -> tree w !! c = None) ->
  Os.listdir w d = [].
Proof.
  intros H. destruct (Os.listdir w d) as [|c cs] eqn:Hl; [reflexivity|].
  exfalso.
  assert (Hc : c ∈ Os.listdir w d) by (rewrite Hl; apply list_elem_of_here).
  apply listdir_elem in Hc as (Hdn & Hne & Hdom).
  apply elem_of_dom in Hdom as [n Hn]. rewrite (H c Hdn Hne) in Hn.
  discriminate.
Qed.

(** X20: a pass takes a directory away only in its final sweep, and only
    when the directory lies below the output root, its path does not end
    in [.git], and nothing is left in it: whatever the outcome of the
    pass, a directory that is no directory afterwards is such a one. *)
Theorem X20_only_empty_directories_removed self method tag w o w'
  (d : string) :
  sync_tag self method tag w = (o, w') ->
  tree w !! d = Some Directory ->
  tree w' !! d <> Some Directory ->
  tree w' !! d = None
  /\ Os.below (output_path self) d = true
  /\ PyStr.endswith ".git" d = false
  /\ Os.listdir w' d = [].
Proof.
  intros H Hd Hgone.
  apply pass_frame in H as (w3 & [_ Hkeep] & H).
  apply Hkeep in Hd.
  assert (Hsweep : exists o4 w4,
             sweep self w3 = (o4, w4) /\ tree w' = tree w4
             /\ Os.listdir w' d = Os.listdir w4 d).
  { destruct H as [->|(o4 & w4 & Hs & [->| ->])].
    - contradiction.
    - exists o4, w4. repeat split. exact Hs.
    - exists o4, w4. repeat split. exact Hs. }
  destruct Hsweep as (o4 & w4 & Hs & Ht & Hl). rewrite Ht in *. rewrite Hl.
  pose proof (sweep_spec _ _ _ _ Hs) as (_ & Honly & _ & Hempty).
  assert (Hnone : tree w4 !! d = None).
  { destruct (tree w4 !! d) as [n|] eqn:Hn; [|reflexivity].
    exfalso. apply Hgone. rewrite <- Hd, <- Hn. apply Honly.
    rewrite Hn. eauto. }
  split; [exact Hnone|]. split; [|split].
  - destruct (Os.below (output_path self) d) eqn:Hb; [reflexivity|].
    exfalso. pose proof (sweep_outside _ _ _ _ Hs d Hb) as Hsame.
    rewrite Hsame in Hnone by eauto. congruence.
  - destruct (PyStr.endswith ".git" d) eqn:Hg; [|reflexivity].
    exfalso. rewrite (sweep_git _ _ _ _ d Hs Hg) in Hnone. congruence.
  - apply listdir_empty. apply Hempty; [eauto|exact Hnone].
Qed.

Lemma X20_only_empty_directories_removed_witness :
  Os.below "/yac" "/yac/Old Series" = true
  /\ Os.listdir (sync_tag sample_manager MethodCopy "Comics" sample_world).2
       "/yac/Old Series" = [].
Proof.
  assert (G : tree (sync_tag sample_manager MethodCopy "Comics" sample_world).2
                !! "/yac/Old Series" <> Some Directory)
    by (vm_compute; discriminate).
  destruct (sync_tag sample_manager MethodCopy "Comics" sample_world)
    as [o w'] eqn:H.
  cbn [snd] in *.
  destruct (X20_only_empty_directories_removed sample_manager MethodCopy
              "Comics" sample_world o w' "/yac/Old Series" H
              ltac:(vm_compute; reflexivity) G)
    as (_ & Hb & _ & Hl).
  split; [exact Hb|exact Hl].
Defined.

(** ** Links *)

Lemma symlink_ok (src dst : string) w :
  tree w !! dst = None ->
  Os.parent_ok w dst = true ->
  dst ∉ denied w ->
  Os.symlink src dst w = (Ok tt, set_tree (insert dst (Symlink src)) w).
Proof.
  intros Hdst Hparent Hden. unfold Os.symlink.
  rewrite Hdst, Hparent. cbn [negb].
  rewrite bool_decide_eq_false_2 by exact Hden. reflexivity.
Qed.

(** X21: in link mode, when the target path is free or holds a file or a
    link that leads to a file, its parent directory exists and writing it
    is permitted, [_process_file] returns with a link to the source at the
    target (in place of what was there), changes no other path and logs
    the link. The source is not looked at: the link is created also when
    the source does not exist. *)
Theorem X21_link_materializes (source_file target_file : string)
  (book_id : Z) (b : book_data) (f : format_type) w :
  tree w !! target_file = None \/ Os.isfile w target_file = true ->
  Os.parent_ok w target_file = true ->
  target_file ∉ denied w ->
  exists w',
    _process_file MethodLink (source_file, target_file, book_id, b, f) w
      = (Ok tt, w')
    /\ tree w' = <[target_file := Symlink source_file]> (tree w)
    /\ log w' = (log w ++ [InfoSymlinkCreated (OsPath.basename target_file)
                             source_file])%list.
Proof.
  intros Hfree Hparent Hden.
  unfold _process_file, try_except. unfold bind at 1, get.
  destruct (Os.path_exists w target_file) eqn:Hex.
  - assert (Hdir : Os.isdir w target_file = false).
    { destruct Hfree as [Hnone|Hfile].
      - apply isdir_false_of_none, Hnone.
      - apply isfile_not_dir, Hfile. }
    assert (Hrm : Os.remove target_file w
                  = (Ok tt, set_tree (delete target_file) w)).
    { unfold Os.remove. apply path_exists_some in Hex as [n Hn]. rewrite Hn.
      unfold Os.isdir in Hdir. rewrite Hn in Hdir.
      destruct n; [| |apply bool_decide_eq_false in Hdir; congruence];
        rewrite bool_decide_eq_false_2 by exact Hden; reflexivity. }
    erewrite bind_ok by exact Hrm. erewrite bind_ok.
    2:{ apply symlink_ok.
        - cbn [tree set_tree]. apply lookup_delete_eq.
        - rewrite parent_ok_delete by exact Hdir. exact Hparent.
        - exact Hden. }
    eexists. split; [reflexivity|]. cbn [tree log add_log set_tree].
    split; [apply insert_delete_eq|reflexivity].
  - assert (Hnone : tree w !! target_file = None).
    { destruct Hfree as [Hnone|Hfile]; [exact Hnone|].
      unfold Os.path_exists in Hex. rewrite Hfile in Hex. discriminate. }
    unfold bind at 1, ret. erewrite bind_ok
      by (apply symlink_ok; assumption).
    eexists. split; [reflexivity|]. cbn [tree log add_log set_tree].
    split; reflexivity.
Qed.

Lemma X21_link_materializes_witness :
  exists w',
    _process_file MethodLink
      ("/library/Bob Kane/Annual (2)/Annual - Bob Kane.cbr",
       "/yac/Old Series/1.0 - Gone.CBZ", 2, annual, Cbr) sample_world
      = (Ok tt, w')
    /\ tree w' !! "/yac/Old Series/1.0 - Gone.CBZ"
       = Some (Symlink "/library/Bob Kane/Annual (2)/Annual - Bob Kane.cbr")
    /\ Os.path_exists w' "/yac/Old Series/1.0 - Gone.CBZ" = false.
Proof.
  destruct (X21_link_materializes
              "/library/Bob Kane/Annual (2)/Annual - Bob Kane.cbr"
              "/yac/Old Series/1.0 - Gone.CBZ" 2 annual Cbr sample_world)
    as (w' & Hrun & Ht & _).
  - right. vm_compute. reflexivity.
  - vm_compute. reflexivity.
  - intros H. apply elem_of_empty in H. exact H.
  - exists w'. split; [exact Hrun|].
    assert (Hl : tree w' !! "/yac/Old Series/1.0 - Gone.CBZ"
                 = Some (Symlink
                     "/library/Bob Kane/Annual (2)/Annual - Bob Kane.cbr")).
    { rewrite Ht. apply lookup_insert_eq. }
    split; [exact Hl|].
    unfold Os.path_exists, Os.isfile, Os.isdir. cbn [Os.isfile_fuel].
    rewrite Hl, Ht. vm_compute. reflexivity.
Defined.

(** ** The links of a pass *)

Lemma process_link_step (j : pending) w :
  linkable w j ->
  exists w',
    _process_file MethodLink j w = (Ok tt, w')
    /\ denied w' = denied w
    /\ (tree w' = <[target_of j := Symlink (source_of j)]> (tree w)
        \/ (tree w' = tree w
            /\ exists q, tree w !! target_of j = Some (Symlink q))).
Proof.
  destruct j as [[[[source_file target_file] book_id] b] f].
  unfold linkable, source_of, target_of.
  intros (Hnd & Hpar & Hden).
  assert (Hdir : Os.isdir w target_file = false).
  { unfold Os.isdir. apply bool_decide_eq_false. exact Hnd. }
  assert (Hparent : Os.parent_ok w target_file = true).
  { unfold Os.parent_ok, Os.isdir. cbv zeta.
    rewrite (bool_decide_eq_true_2 _ Hpar). apply orb_true_r. }
  unfold _process_file, try_except. unfold bind at 1, get.
  destruct (Os.path_exists w target_file) eqn:Hex.
  - assert (Hrm : Os.remove target_file w
                  = (Ok tt, set_tree (delete target_file) w)).
    { unfold Os.remove. apply path_exists_some in Hex as [n Hn]. rewrite Hn.
      destruct n; [| |congruence];
        rewrite bool_decide_eq_false_2 by exact Hden; reflexivity. }
    erewrite bind_ok by exact Hrm. erewrite bind_ok.
    2:{ apply symlink_ok.
        - cbn [tree set_tree]. apply lookup_delete_eq.
        - rewrite parent_ok_delete by exact Hdir. exact Hparent.
        - exact Hden. }
    eexists. split; [reflexivity|]. cbn [tree denied add_log set_tree].
    split; [reflexivity|]. left. apply insert_delete_eq.
  - unfold bind at 1, ret.
    destruct (tree w !! target_file) as [[|q|]|] eqn:Hn.
    + exfalso. unfold Os.path_exists, Os.isfile in Hex.
      cbn [Os.isfile_fuel] in Hex. rewrite Hn in Hex. discriminate.
    + erewrite bind_raise
        by (unfold Os.symlink; rewrite Hn; reflexivity).
      eexists. split; [reflexivity|]. cbn [tree denied add_log].
      split; [reflexivity|]. right. split; [reflexivity|eauto].
    + contradiction.
    + erewrite bind_ok by (apply symlink_ok; assumption).
      eexists. split; [reflexivity|]. cbn [tree denied add_log set_tree].
      split; [reflexivity|]. left. reflexivity.
Qed.

Lemma linkable_step w w' t n (j : pending) :
  tree w' = <[t := n]> (tree w) -> n <> Directory ->
  denied w' = denied w ->
  tree w !! t <> Some Directory ->
  linkable w j -> linkable w' j.
Proof.
  intros Ht Hn Hd Hnt (Hnd & Hpar & Hden). unfold linkable.
  rewrite Ht, Hd. split; [|split; [|exact Hden]].
  - destruct (decide (target_of j = t)) as [->|Hs].
    + rewrite lookup_insert_eq. congruence.
    + rewrite lookup_insert_ne by congruence. exact Hnd.
  - rewrite lookup_insert_ne; [exact Hpar|].
    intros E. rewrite E in Hnt. contradiction.
Qed.

Lemma linkable_same w w' (j : pending) :
  tree w' = tree w -> denied w' = denied w -> linkable w j -> linkable w' j.
Proof. unfold linkable. intros -> ->. auto. Qed.

Lemma process_all_link (l : list pending) w :
  (forall j, j ∈ l -> linkable w j) ->
  exists futures w',
    map_m (fun item => submit (_process_file MethodLink item)) l w
      = (Ok futures, w')
    /\ Forall (fun o => o = Ok tt) futures
    /\ (forall j, j ∈ l -> exists q, tree w' !! target_of j = Some (Symlink q))
    /\ (forall p q, tree w !! p = Some (Symlink q) ->
          exists q', tree w' !! p = Some (Symlink q'))
    /\ (forall p q, tree w' !! p = Some (Symlink q) ->
          tree w !! p = Some (Symlink q)
          \/ exists j, j ∈ l /\ target_of j = p /\ q = source_of j)
    /\ (forall p, p ∉ target_of <$> l -> tree w' !! p = tree w !! p).
Proof.
  revert w. induction l as [|j l IH]; intros w Hlink.
  - exists [], w. split; [reflexivity|]. split; [constructor|].
    split; [intros j Hj; apply elem_of_nil in Hj; destruct Hj|].
    split; [eauto|]. split; [auto|reflexivity].
  - destruct (process_link_step j w) as (w1 & Hj & Hd & Ht);
      [apply Hlink, list_elem_of_here|].
    assert (Hnd : tree w !! target_of j <> Some Directory).
    { destruct (Hlink j (list_elem_of_here _ _)) as (H & _). exact H. }
    destruct (IH w1) as (futures & w2 & Hl & Hall & Hnew & Hstay & Hfrom & Hother).
    { intros j' Hj'. pose proof (Hlink j' (list_elem_of_further _ _ _ Hj')).
      destruct Ht as [Ht|[Ht _]].
      - eapply linkable_step; [exact Ht|discriminate|exact Hd|exact Hnd|].
        assumption.
      - eapply linkable_same; eassumption. }
    assert (Hhere : exists q, tree w1 !! target_of j = Some (Symlink q)).
    { destruct Ht as [Ht|[Ht [q Hq]]].
      - rewrite Ht, lookup_insert_eq. eauto.
      - rewrite Ht. eauto. }
    assert (Hstay1 : forall p q, tree w !! p = Some (Symlink q) ->
                       exists q', tree w1 !! p = Some (Symlink q')).
    { intros p q Hp. destruct Ht as [Ht|[Ht _]].
      - rewrite Ht. destruct (decide (p = target_of j)) as [->|Hs].
        + rewrite lookup_insert_eq. eauto.
        + rewrite lookup_insert_ne by congruence. eauto.
      - rewrite Ht. eauto. }
    exists (Ok tt :: futures), w2.
    split; [|split; [|split; [|split; [|split]]]].
    + cbn [map_m]. erewrite bind_ok.
      2:{ unfold submit. rewrite Hj. reflexivity. }
      erewrite bind_ok by exact Hl. reflexivity.
    + constructor; [reflexivity|exact Hall].
    + intros j' Hj'. apply elem_of_cons in Hj' as [->|Hj'].
      * destruct Hhere as [q Hq]. eapply Hstay, Hq.
      * apply Hnew, Hj'.
    + intros p q Hp. destruct (Hstay1 p q Hp) as [q1 Hq1]. eapply Hstay, Hq1.
    + intros p q Hp. destruct (Hfrom p q Hp) as [Hp1|(j' & Hj' & Et & Es)].
      * destruct Ht as [Ht|[Ht _]].
        -- rewrite Ht in Hp1. destruct (decide (p = target_of j)) as [->|Hs].
           ++ rewrite lookup_insert_eq in Hp1. injection Hp1 as <-.
              right. exists j. split; [apply list_elem_of_here|].
              split; reflexivity.
           ++ rewrite lookup_insert_ne in Hp1 by congruence. left. exact Hp1.
        -- rewrite Ht in Hp1. left. exact Hp1.
      * right. exists j'. split; [apply list_elem_of_further, Hj'|].
        split; assumption.
    + intros p Hp. rewrite fmap_cons in Hp.
      apply not_elem_of_cons in Hp as [Hp1 Hp2].
      rewrite (Hother p Hp2). destruct Ht as [Ht|[Ht _]]; rewrite Ht;
        [apply lookup_insert_ne; congruence|reflexivity].
Qed.

Lemma execute_link (to_process : list pending) (to_remove : gset string)
  w o w' :
  (forall j, j ∈ to_process -> linkable w j) ->
  execute MethodLink to_process to_remove w = (o, w') ->
  (forall p, p ∉ to_remove -> p ∈ target_of <$> to_process ->
     exists q, tree w' !! p = Some (Symlink q)
               /\ (tree w !! p = Some (Symlink q)
                   \/ exists j, j ∈ to_process /\ target_of j = p
                                /\ q = source_of j))
  /\ (forall p, p ∉ to_remove -> p ∉ target_of <$> to_process ->
        file_at w' p = file_at w p).
Proof.
  intros Hlink H.
  pose proof (execute_spec _ _ _ _ _ _ H) as [(_ & Hfa & _) _].
  split.
  2:{ intros p Hp1 Hp2. apply Hfa. intros [?|?]; contradiction. }
  unfold execute in H. unfold bind at 1 in H.
  match type of H with (match ?m w with _ => _ end) = _ =>
    assert (H1 : exists w1, m w = (Ok tt, w1)
              /\ forall p, p ∈ target_of <$> to_process ->
                   exists q, tree w1 !! p = Some (Symlink q)
                     /\ (tree w !! p = Some (Symlink q)
                         \/ exists j, j ∈ to_process /\ target_of j = p
                                      /\ q = source_of j))
  end.
  { destruct to_process as [|j l] eqn:Hl.
    - exists w. split; [reflexivity|].
      intros p Hp. apply elem_of_nil in Hp. destruct Hp.
    - rewrite <- Hl in *.
      destruct (process_all_link to_process w Hlink)
        as (futures & w1 & Hrun & Hall & Hnew & _ & Hfrom & _).
      exists w1. split.
      + erewrite bind_ok by exact Hrun. apply results_all_ok, Hall.
      + intros p Hp. apply list_elem_of_fmap in Hp as (j' & -> & Hj').
        destruct (Hnew j' Hj') as [q Hq]. exists q. split; [exact Hq|].
        apply Hfrom, Hq. }
  destruct H1 as (w1 & Hrun1 & Hnew). rewrite Hrun1 in H.
  assert (H2 : execute MethodLink [] to_remove w1 = (o, w')) by exact H.
  apply execute_spec in H2 as [(_ & Hfb & _) _].
  intros p Hp1 Hp2. destruct (Hnew p Hp2) as (q & Hq & Hwhere).
  exists q. split; [|exact Hwhere].
  apply (file_at_Some w' p (Symlink q)). rewrite Hfb.
  - apply file_at_file; [exact Hq|discriminate].
  - intros [Hin|Hin]; [|contradiction].
    apply elem_of_nil in Hin. exact Hin.
Qed.

(** X22: in link mode a pass that returns delivers every item: when every
    target path of the catalog is free, or holds a regular file or a link
    to the source of a pair with that target, and writing it is permitted,
    then after the pass every target holds a link to the source of a pair
    with that target, or still holds what it held before the pass (the
    pair was not queued because the cache matched and the target existed).
    No source has to exist for this. *)
Theorem X22_link_delivers_every_item (library output : string)
  (log_file : option string) tag w w' (current : catalog) :
  let self := new_manager library output log_file in
  db w tag = Some current ->
  (forall x, x ∈ pairs current ->
     (pair_target self x ∉ denied w)
     /\ (forall n, tree w !! pair_target self x = Some n ->
           n = Regular
           \/ exists y, y ∈ pairs current
                        /\ pair_target self y = pair_target self x
                        /\ n = Symlink (pair_source self y))) ->
  sync_tag self MethodLink tag w = (Ok tt, w') ->
  forall x, x ∈ pairs current ->
    (exists y, y ∈ pairs current
               /\ pair_target self y = pair_target self x
               /\ tree w' !! pair_target self x
                  = Some (Symlink (pair_source self y)))
    \/ (Os.isfile w (pair_target self x) = true
        /\ tree w' !! pair_target self x = tree w !! pair_target self x).
Proof.
  intros self Hdb Hpre H x Hx.
  apply sync_tag_stages in H as (o1 & w1 & Hplan & H).
  destruct o1 as [[[c tp] tr]|e]; [|destruct H; discriminate].
  destruct H as (o2 & w2 & Hexec & H).
  destruct o2 as [[]|e]; [|destruct H; discriminate].
  destruct H as (o3 & w3 & Hsave & H).
  destruct o3 as [[]|e]; [|destruct H; discriminate].
  destruct H as (o4 & w4 & Hsweep & H).
  destruct o4 as [[]|e]; [|destruct H; discriminate].
  destruct H as [_ ->].
  apply save_spec in Hsave as (_ & _ & Hf3 & _ & _ & _ & _ & Hcf).
  assert (Hne : output_path self <> "").
  { intros E. apply (Hcf eq_refl). cbn [output_path self new_manager] in E.
    subst output. reflexivity. }
  apply sweep_spec in Hsweep as (_ & _ & Hf4 & _).
  pose proof (plan_complete _ _ _ _ _ _ _ Hne Hplan) as (Hdirs & Hmem & Hall).
  apply plan_spec in Hplan as (((Hden & _ & _) & Hf1 & _) & Hok).
  destruct (Hok c tp tr eq_refl) as (Hc & _ & Htr & Hfolders).
  rewrite Hdb in Hc. injection Hc as <-.
  assert (Hnd : forall y, y ∈ pairs current ->
                  tree w1 !! pair_target self y <> Some Directory).
  { intros y Hy Hd. destruct (Hdirs _ Hd) as [Hold|Hpd].
    - destruct (Hpre y Hy) as (_ & Hgood).
      destruct (Hgood _ Hold) as [E|(z & _ & _ & E)]; discriminate.
    - destruct y as [[[k b] f] fd].
      exact (target_not_plan_directory self b f Hne Hpd). }
  assert (Hlink : forall j, j ∈ tp -> linkable w1 j).
  { intros j Hj. destruct (Hmem j Hj) as (y & Hy & ->).
    unfold linkable. destruct (pair_entry_parts self y) as [_ ->].
    destruct (Hpre y Hy) as (Hperm & _).
    split; [apply Hnd, Hy|split].
    - destruct y as [[[k b] f] fd]. cbn [pair_target].
      rewrite dirname_target. apply (Hfolders (k, b, f, fd) Hy).
    - rewrite Hden. exact Hperm. }
  apply (execute_link _ _ _ _ _ Hlink) in Hexec as [Hnew Hsame].
  assert (Hnr : pair_target self x ∉ tr).
  { intros Hin. apply Htr in Hin as [_ Hno]. apply Hno. exists x.
    split; [exact Hx|reflexivity]. }
  assert (Hcache : pair_target self x <> metadata_cache_file self).
  { intros E. pose proof (pair_target_media self x) as Hm.
    rewrite E in Hm. cbn [metadata_cache_file self new_manager] in Hm.
    rewrite is_media_join_const in Hm by reflexivity. discriminate. }
  assert (Hlast : file_at (add_log (InfoSyncComplete tag) w4)
                    (pair_target self x)
                  = file_at w2 (pair_target self x)).
  { change (file_at (add_log (InfoSyncComplete tag) w4) (pair_target self x))
      with (file_at w4 (pair_target self x)).
    rewrite Hf4. apply Hf3, Hcache. }
  destruct (decide (pair_target self x ∈ target_of <$> tp)) as [Hin|Hout].
  { left. destruct (Hnew _ Hnr Hin) as (q & Hq & Hwhere).
    assert (Hq' : tree (add_log (InfoSyncComplete tag) w4)
                    !! pair_target self x = Some (Symlink q)).
    { apply file_at_Some. rewrite Hlast.
      apply file_at_file; [exact Hq|discriminate]. }
    destruct Hwhere as [Hold|(j & Hj & Et & Es)].
    - assert (Hold0 : tree w !! pair_target self x = Some (Symlink q)).
      { apply file_at_Some. rewrite <- Hf1 by (intros []).
        apply file_at_file; [exact Hold|discriminate]. }
      destruct (Hpre x Hx) as (_ & Hgood).
      destruct (Hgood _ Hold0) as [E|(y & Hy & Ety & E)]; [discriminate|].
      injection E as ->. exists y. split; [exact Hy|]. split; [exact Ety|].
      exact Hq'.
    - destruct (Hmem j Hj) as (y & Hy & ->).
      destruct (pair_entry_parts self y) as [Es' Et'].
      rewrite Et' in Et. rewrite Es' in Es. subst q.
      exists y. split; [exact Hy|]. split; [exact Et|exact Hq']. }
  destruct (Hall x Hx) as [Hq|[Hfile|Hd]].
  - exfalso. apply Hout. apply list_elem_of_fmap. exists (pair_entry self x).
    split; [|exact Hq]. symmetry. apply pair_entry_parts.
  - right. split; [exact Hfile|].
    apply isfile_entry in Hfile as (n & Hn & Hfile).
    rewrite Hn. apply file_at_Some.
    rewrite Hlast, (Hsame _ Hnr Hout), Hf1 by (intros []).
    apply file_at_file; assumption.
  - exfalso. exact (Hnd x Hx Hd).
Qed.

Lemma X22_link_delivers_every_item_witness :
  exists y,
    y ∈ pairs sample_catalog
    /\ pair_target sample_manager y = "/yac/No Series/Annual.cbr"
    /\ tree (sync_tag sample_manager MethodLink "Comics" sample_world).2
         !! "/yac/No Series/Annual.cbr"
       = Some (Symlink (pair_source sample_manager y)).
Proof.
  assert (X : (sync_tag sample_manager MethodLink "Comics" sample_world).1
              = Ok tt) by (vm_compute; reflexivity).
  assert (N : Os.isfile sample_world "/yac/No Series/Annual.cbr" = false)
    by (vm_compute; reflexivity).
  destruct (sync_tag sample_manager MethodLink "Comics" sample_world)
    as [o w'] eqn:H.
  cbn [fst snd] in *. subst o.
  assert (E : pairs sample_catalog
              = [(2%Z, annual, Cbr,
                  {| fd_name := "Annual - Bob Kane";
                     fd_last_modified := Some "2024-01-02 10:00:00+00:00";
                     fd_size := Some 2048%Z |});
                 (1%Z, batman, Cbz,
                  {| fd_name := "Batman - Bob Kane";
                     fd_last_modified := Some "2024-01-01 10:00:00+00:00";
                     fd_size := Some 1024%Z |})])
    by (vm_compute; reflexivity).
  assert (Hpre : forall x, x ∈ pairs sample_catalog ->
            (pair_target (new_manager "/library" "/yac" None) x
               ∉ denied sample_world)
            /\ (forall n,
                  tree sample_world
                    !! pair_target (new_manager "/library" "/yac" None) x
                  = Some n ->
                  n = Regular
                  \/ exists y,
                       y ∈ pairs sample_catalog
                       /\ pair_target (new_manager "/library" "/yac" None) y
                          = pair_target (new_manager "/library" "/yac" None) x
                       /\ n = Symlink
                                (pair_source
                                   (new_manager "/library" "/yac" None) y))).
  { intros x Hx. rewrite E in Hx.
    repeat (apply elem_of_cons in Hx as [->|Hx]);
      [..|apply elem_of_nil in Hx; destruct Hx];
      (split; [intros Hin; apply elem_of_empty in Hin; exact Hin|];
       intros n Hn; vm_compute in Hn; discriminate). }
  assert (Hx : (2%Z, annual, Cbr,
                {| fd_name := "Annual - Bob Kane";
                   fd_last_modified := Some "2024-01-02 10:00:00+00:00";
                   fd_size := Some 2048%Z |}) ∈ pairs sample_catalog)
    by (rewrite E; apply list_elem_of_here).
  destruct (X22_link_delivers_every_item "/library" "/yac" None "Comics"
              sample_world w' sample_catalog eq_refl Hpre H _ Hx)
    as [Hy|[Hfile _]].
  - exact Hy.
  - change (pair_target (new_manager "/library" "/yac" None)
              (2%Z, annual, Cbr,
               {| fd_name := "Annual - Bob Kane";
                  fd_last_modified := Some "2024-01-02 10:00:00+00:00";
                  fd_size := Some 2048%Z |}))
      with "/yac/No Series/Annual.cbr" in Hfile.
    rewrite N in Hfile. discriminate.
Defined.
